(** * loftus: the synchronisation daemon of [bup.go]

    A shallow embedding of the Git backend ([GitBackend]), of the directory
    walk that registers the inotify watches ([Client.addWatches]) and of the
    debouncer ([Changed] / [syncLater]), with the properties that the
    specification states about them.

    Conventions.
    - A Go [string] is a sequence of bytes: [string] of the Standard Library.
    - [time.Time] and [time.Duration] are integers ([Z], in nanoseconds).
    - A run of an external command is answered by an oracle; what the code
      does with the answer is modelled, not what git does.
    - Every effect ([log.Println], running a command, [bup_info], starting a
      goroutine) is appended to a trace, together with the value that
      [isSyncActive] has at that moment.
    - An index out of range is a Go panic: the computation stops with
      [Panic] and nothing after it is executed. *)

From Stdlib Require Import String Ascii List ZArith Lia Bool Arith.
From Stdlib Require Import DecimalString.
Import ListNotations.

Open Scope string_scope.
Open Scope list_scope.
Open Scope Z_scope.

(** ** The parts of Go's [strings] and [strconv] packages that the code uses *)

Module GoStrings.

(** [strings.HasPrefix s p] *)
Fixpoint HasPrefix (s p : string) : bool :=
  match p, s with
  | EmptyString, _ => true
  | String _ _, EmptyString => false
  | String a p', String b s' => Ascii.eqb a b && HasPrefix s' p'
  end.

(** [strings.Contains s substr]: [substr] occurs in [s] at some offset. *)
Fixpoint Contains (s substr : string) : bool :=
  HasPrefix s substr ||
  match s with
  | EmptyString => false
  | String _ s' => Contains s' substr
  end.

(** [strings.Join elems sep] *)
Fixpoint Join (elems : list string) (sep : string) : string :=
  match elems with
  | [] => ""
  | [x] => x
  | x :: rest => x ++ sep ++ Join rest sep
  end.

(** [strings.Split s sep] for a separator of one byte (the code splits on
    a line feed and on a space): the pieces between the occurrences of
    the separator, always at least one piece. *)
Fixpoint SplitByte (s : string) (sep : ascii) : list string :=
  match s with
  | EmptyString => [""]
  | String c s' =>
      if Ascii.eqb c sep then "" :: SplitByte s' sep
      else match SplitByte s' sep with
           | [] => [String c ""]
           | p :: ps => String c p :: ps
           end
  end.

(** [strings.Replace s "  " " " (-1)]: every non-overlapping pair of
    spaces, from the left, becomes one space. *)
Fixpoint ReplaceDoubleSpace (s : string) : string :=
  match s with
  | String " " (String " " rest) => String " " (ReplaceDoubleSpace rest)
  | String c rest => String c (ReplaceDoubleSpace rest)
  | EmptyString => EmptyString
  end.

(** [strings.Replace s old new (-1)] for [old] and [new] of one byte. *)
Fixpoint ReplaceByte (s : string) (old new : ascii) : string :=
  match s with
  | EmptyString => EmptyString
  | String c rest =>
      String (if Ascii.eqb c old then new else c) (ReplaceByte rest old new)
  end.

(** [strconv.Itoa] on a length (never negative). *)
Definition Itoa (n : nat) : string := NilZero.string_of_uint (Nat.to_uint n).

Definition tab : ascii := Ascii.ascii_of_nat 9.
Definition lf : ascii := Ascii.ascii_of_nat 10.

End GoStrings.

Import GoStrings.

(** ** The Git backend: data *)

(** [*exec.ExitError]: the exit status of the child process and the text
    that [Error()] gives for it. *)
Record ExitError := { exitStatus : Z; errorText : string }.

(** What [cmd.CombinedOutput()] returns: the combined standard output and
    standard error, and [nil] or the error. *)
Record CmdResult := { out : string; err : option ExitError }.

(** The world outside: the answer to running [cmd.Args] in [cmd.Dir].
    Within one call of [Sync] every command line is different, so an
    oracle keyed by the command line is as general as one keyed by time.
    The error, when there is one, is an [*exec.ExitError]; a command that
    cannot be started at all is not among the answers. *)
Definition Oracle := string -> list string -> CmdResult.

(** [type GitError struct] *)
Record GitError := {
  cmd : string;
  internalError : ExitError;
  output : string;
  status : Z
}.

(** [func (self *GitError) Error() string] *)
Definition GitError_Error (e : GitError) : string :=
  (("git error running: " ++ cmd e ++ String lf (String lf ""))
     ++ (output e ++ String lf ""))
    ++ errorText (internalError e).

(** The reading that the specification gives of the value [Sync] returns
    ([SyncOutcome]). *)
Inductive SyncOutcome :=
| Success
| NoOpCommit
| Failure (command combinedOutput : string) (exitStatus : Z).

Inductive Res (A : Type) :=
| Ret (a : A)
| Panic.
Arguments Ret {A} a.
Arguments Panic {A}.

Section Backend.

(** The push hook is a Go closure ([func()]); the backend stores it and
    starts it in a goroutine, and never looks inside. *)
Context {Hook : Type}.

(** [type GitBackend struct]; [syncLock] is [true] while the mutex is
    held. *)
Record GitBackend := {
  gitPath : string;
  rootDir : string;
  syncLock : bool;
  isSyncPending : bool;
  isSyncActive : bool;
  lastEvent : Z;
  pushHook : option Hook
}.

Definition set_isSyncActive (b : bool) (g : GitBackend) : GitBackend :=
  {| gitPath := gitPath g; rootDir := rootDir g; syncLock := syncLock g;
     isSyncPending := isSyncPending g; isSyncActive := b;
     lastEvent := lastEvent g; pushHook := pushHook g |}.

Definition set_isSyncPending (b : bool) (g : GitBackend) : GitBackend :=
  {| gitPath := gitPath g; rootDir := rootDir g; syncLock := syncLock g;
     isSyncPending := b; isSyncActive := isSyncActive g;
     lastEvent := lastEvent g; pushHook := pushHook g |}.

Definition set_syncLock (b : bool) (g : GitBackend) : GitBackend :=
  {| gitPath := gitPath g; rootDir := rootDir g; syncLock := b;
     isSyncPending := isSyncPending g; isSyncActive := isSyncActive g;
     lastEvent := lastEvent g; pushHook := pushHook g |}.

Definition set_lastEvent (t : Z) (g : GitBackend) : GitBackend :=
  {| gitPath := gitPath g; rootDir := rootDir g; syncLock := syncLock g;
     isSyncPending := isSyncPending g; isSyncActive := isSyncActive g;
     lastEvent := t; pushHook := pushHook g |}.

Definition set_pushHook (h : option Hook) (g : GitBackend) : GitBackend :=
  {| gitPath := gitPath g; rootDir := rootDir g; syncLock := syncLock g;
     isSyncPending := isSyncPending g; isSyncActive := isSyncActive g;
     lastEvent := lastEvent g; pushHook := h |}.

(** [NewGitBackend]: every field but the two paths has its zero value. *)
Definition NewGitBackend (syncDir path : string) : GitBackend :=
  {| gitPath := path; rootDir := syncDir; syncLock := false;
     isSyncPending := false; isSyncActive := false;
     lastEvent := 0; pushHook := None |}.

(** ** Effects *)

Inductive Goroutine :=
| GoSyncLater                 (* [go self.syncLater()] *)
| GoPushHook (h : Hook).      (* [go self.pushHook()] *)

Inductive Effect :=
| Log (line : string)                      (* [log.Println] *)
| Exec (dir : string) (argv : list string) (* [cmd.CombinedOutput()] *)
| Info (msg : string)                      (* [Info]: runs [bup_info msg] *)
| Go (g : Goroutine).

(** An effect, and the value of [isSyncActive] when it happened. *)
Record Entry := { active : bool; effect : Effect }.

Record St := { backend : GitBackend; trace : list Entry }.

Definition M (A : Type) : Type := St -> Res A * St.

Definition ret {A} (a : A) : M A := fun st => (Ret a, st).

Definition bind {A B} (m : M A) (k : A -> M B) : M B :=
  fun st =>
    match m st with
    | (Ret a, st') => k a st'
    | (Panic, st') => (Panic, st')
    end.

Definition panic {A} : M A := fun st => (Panic, st).

Definition get : M GitBackend := fun st => (Ret (backend st), st).

Definition modify (f : GitBackend -> GitBackend) : M unit :=
  fun st => (Ret tt, {| backend := f (backend st); trace := trace st |}).

Definition emit (e : Effect) : M unit :=
  fun st =>
    (Ret tt,
     {| backend := backend st;
        trace := trace st
                 ++ [{| active := isSyncActive (backend st); effect := e |}] |}).

Definition when (b : bool) (m : M unit) : M unit := if b then m else ret tt.

End Backend.

Arguments GitBackend : clear implicits.
Arguments Goroutine : clear implicits.
Arguments Effect : clear implicits.
Arguments Entry : clear implicits.
Arguments St : clear implicits.
Arguments M : clear implicits.

Declare Scope go_scope.
Delimit Scope go_scope with go.
Notation "x <- m ;; k" := (bind m (fun x => k))
  (at level 61, m at next level, right associativity) : go_scope.
Notation "m ;;; k" := (bind m (fun _ => k))
  (at level 61, right associativity) : go_scope.
Open Scope go_scope.

(** ** The Git backend: operations *)

Section Operations.

Context {Hook : Type}.
Variable run : Oracle.

(** [func (self *GitBackend) isGit(filename string) bool] *)
Definition isGit (filename : string) : bool := Contains filename ".git".

(** [func (self *GitBackend) ShouldWatch(filename string) bool] *)
Definition ShouldWatch (filename : string) : bool := negb (isGit filename).

(** [func (self *GitBackend) RegisterPushHook(callback func())] *)
Definition RegisterPushHook (callback : option Hook) : M Hook unit :=
  modify (set_pushHook callback).

(** [func (self *GitBackend) Changed(filename string)]; [now] is the
    value of [time.Now()]. *)
Definition Changed (now : Z) (filename : string) : M Hook unit :=
  g <- get ;;
  if isGit filename || isSyncActive g then ret tt
  else
    modify (set_lastEvent now) ;;;
    emit (Go GoSyncLater).

(** The body of the loop of [status], for the lines still to read and
    the three lists so far. [lineParts[1]] panics when the line has no
    space, [status[0]] when the line starts with one. *)
Fixpoint statusLines (lines : list string)
    (created modified deleted : list string)
    : M Hook (list string * list string * list string) :=
  match lines with
  | [] => ret (created, modified, deleted)
  | line :: rest =>
      if (String.length line =? 0)%nat then
        statusLines rest created modified deleted
      else
        let line := ReplaceDoubleSpace line in
        let line := ReplaceByte line tab " " in
        match SplitByte line " " with
        | st :: filename :: _ =>
            match st with
            | EmptyString => panic
            | String c _ =>
                if Ascii.eqb c "A" then
                  statusLines rest (created ++ [filename]) modified deleted
                else if Ascii.eqb c "M" then
                  statusLines rest created (modified ++ [filename]) deleted
                else if Ascii.eqb c "R" then
                  statusLines rest created (modified ++ [filename]) deleted
                else if Ascii.eqb c "D" then
                  statusLines rest created modified (deleted ++ [filename])
                else if Ascii.eqb c "?" then
                  emit (Log ("Unknown. Need git add " ++ filename)) ;;;
                  statusLines rest created modified deleted
                else
                  emit (Log ("Other " ++ st)) ;;;
                  statusLines rest created modified deleted
            end
        | _ => panic
        end
  end.

(** [func (self *GitBackend) status(args ...string)] *)
Definition status_ (args : list string)
    : M Hook (list string * list string * list string) :=
  g <- get ;;
  let argv := gitPath g :: args in
  emit (Log (Join argv " ")) ;;;
  let r := run (rootDir g) argv in
  emit (Exec (rootDir g) argv) ;;;
  match err r with
  | Some e => emit (Log (errorText e))
  | None => ret tt
  end ;;;
  when (0 <? String.length (out r))%nat (emit (Log (out r))) ;;;
  statusLines (SplitByte (out r) lf) [] [] [].

(** One [if len(xs) == 1 ... else if len(xs) > 1 ...] of
    [displayStatus]: what it appends to [msg]. *)
Definition summaryPart (label : string) (names : list string) : string :=
  match names with
  | [] => ""
  | [x] => label ++ x
  | _ :: _ :: _ => label ++ Itoa (List.length names)
  end.

(** The value of [msg] at the end of [displayStatus]. *)
Definition summary (created modified deleted : list string) : string :=
  (("" ++ summaryPart "New: " created)
     ++ summaryPart " Edit: " modified)
    ++ summaryPart " Del: " deleted.

(** [func (self *GitBackend) displayStatus(args ...string)] *)
Definition displayStatus (args : list string) : M Hook unit :=
  cmd <- status_ args ;;
  let '(created, modified, deleted) := cmd in
  let msg := summary created modified deleted in
  when (negb (String.length msg =? 0)%nat) (emit (Info msg)).

(** [func (self *GitBackend) git(gitCmd string, args ...string) *GitError].
    The error of an answer is an [*exec.ExitError] (see [Oracle]), which
    is what the type assertion of the source expects. *)
Definition git (gitCmd : string) (args : list string)
    : M Hook (option GitError) :=
  g <- get ;;
  let argv := gitPath g :: gitCmd :: args in
  emit (Log (Join argv " ")) ;;;
  let r := run (rootDir g) argv in
  emit (Exec (rootDir g) argv) ;;;
  when (0 <? String.length (out r))%nat (emit (Log (out r))) ;;;
  match err r with
  | None => ret None
  | Some e =>
      let gitErr := {| cmd := Join argv " "; internalError := e;
                       output := out r; status := exitStatus e |} in
      when (negb (exitStatus e =? 1)) (emit (Log (errorText e))) ;;;
      ret (Some gitErr)
  end.

(** [func (self *GitBackend) push() *GitError] *)
Definition push : M Hook (option GitError) :=
  e <- git "push" [] ;;
  g <- get ;;
  match e, pushHook g with
  | None, Some h => emit (Go (GoPushHook h))
  | _, _ => ret tt
  end ;;;
  ret e.

(** [func (self *GitBackend) pull() *GitError] *)
Definition pull : M Hook (option GitError) :=
  e <- git "fetch" [] ;;
  match e with
  | Some _ => ret e
  | None =>
      displayStatus ["diff"; "origin/master"; "--name-status"] ;;;
      git "merge" ["origin/master"]
  end.

(** [func (self *GitBackend) Sync() error] *)
Definition Sync : M Hook (option GitError) :=
  emit (Log "* Sync start") ;;;
  modify (set_isSyncActive true) ;;;
  e <- pull ;;
  match e with
  | Some _ => modify (set_isSyncActive false) ;;; ret e
  | None =>
      e <- git "add" ["--all"] ;;
      match e with
      | Some _ => modify (set_isSyncActive false) ;;; ret e
      | None =>
          displayStatus ["status"; "--porcelain"] ;;;
          e <- git "commit" ["--all"; "--message=loftus"] ;;
          match e with
          | Some _ =>
              modify (set_isSyncActive false) ;;;
              emit (Log "* Sync end") ;;;
              ret e
          | None =>
              e <- push ;;
              match e with
              | Some _ => modify (set_isSyncActive false) ;;; ret e
              | None =>
                  modify (set_isSyncActive false) ;;;
                  emit (Log "* Sync end") ;;;
                  ret None
              end
          end
      end
  end.

End Operations.

(** [startClient]: the test under which the error of the first [Sync] is
    shown to the user with [Warn]: the error is not [nil] and its
    [status] is not 1. *)
Definition warnsAtStartup (e : option GitError) : bool :=
  match e with
  | Some ge => negb (status ge =? 1)
  | None => false
  end.

(** The specification's [SyncOutcome] for the value that [Sync] returns on
    backend [g]: [nil] is [Success]; the error of the commit command with
    status 1 is the no-op (the comment at the commit step of [Sync]: an
    error with status 1 means nothing to commit, that counts as a clean
    exit); every other error is a [Failure] with the command line, the
    combined output and the exit status that the [GitError] carries. *)
Definition commitLine {Hook} (g : GitBackend Hook) : string :=
  Join [gitPath g; "commit"; "--all"; "--message=loftus"] " ".

Definition outcome {Hook} (g : GitBackend Hook) (e : option GitError)
    : SyncOutcome :=
  match e with
  | None => Success
  | Some ge =>
      if (status ge =? 1) && String.eqb (cmd ge) (commitLine g)
      then NoOpCommit
      else Failure (cmd ge) (output ge) (status ge)
  end.

(** The command lines that a trace ran, in order. *)
Definition execs {Hook} (tr : list (Entry Hook)) : list (list string) :=
  flat_map (fun en => match effect en with
                      | Exec _ argv => [argv]
                      | _ => []
                      end) tr.

(** The goroutines that a trace started, in order. *)
Definition spawns {Hook} (tr : list (Entry Hook)) : list (Goroutine Hook) :=
  flat_map (fun en => match effect en with
                      | Go g => [g]
                      | _ => []
                      end) tr.

(** The messages that a trace showed to the user with [Info]. *)
Definition infos {Hook} (tr : list (Entry Hook)) : list string :=
  flat_map (fun en => match effect en with
                      | Info m => [m]
                      | _ => []
                      end) tr.

(** [true] for the two lines with which [Sync] brackets its work. *)
Definition isMarker {Hook} (e : Effect Hook) : bool :=
  match e with
  | Log l => String.eqb l "* Sync start" || String.eqb l "* Sync end"
  | _ => false
  end.

(** ** The startup walk: [Client.addWatches] *)

Module Walk.

(** The directory tree under the root, as [filepath.Walk] sees it: a
    file, or a directory with the error of reading it, if any, and its
    entries. *)
Inductive Tree :=
| File (name : string)
| Dir (name : string) (readErr : option string) (entries : list Tree).

Definition name (t : Tree) : string :=
  match t with File n => n | Dir n _ _ => n end.

(** [info.IsDir()] *)
Definition IsDir (t : Tree) : bool :=
  match t with File _ => false | Dir _ _ _ => true end.

(** The [error] values that travel through the walk. *)
Inductive WalkError :=
| SkipDir
| OtherError (msg : string).

(** The inotify watcher: [AddWatch path] answers [nil] or an error, as
    the kernel decides ([addWatchErr]); the paths watched so far, and
    the lines logged. *)
Record Client := { watched : list string; logged : list string }.

Definition CM (A : Type) : Type := Client -> Res A * Client.

Section WithWatcher.

Variable addWatchErr : string -> option string.

(** [filepath.Join] of the library, with which the walk builds the path
    of an entry from the path of its directory and its name (it also
    cleans the path); the walk is modelled for any such function. *)
Variable join : string -> string -> string.

(** [self.watcher.AddWatch(path, INTERESTING)]: the error it returns. *)
Definition AddWatch (path : string) : CM (option string) :=
  fun c =>
    match addWatchErr path with
    | None => (Ret None,
               {| watched := watched c ++ [path]; logged := logged c |})
    | Some e => (Ret (Some e), c)
    end.

Definition Println (line : string) : CM unit :=
  fun c => (Ret tt, {| watched := watched c;
                       logged := logged c ++ [line] |}).

(** The closure [addSingleWatch] of [addWatches]. [info] is [nil] when
    [Lstat] failed on the root: [info.IsDir()] then panics. The value
    of [AddWatch] is dropped and the closure returns [nil]. *)
Definition addSingleWatch (path : string) (info : option Tree)
    (err : option WalkError) : CM (option WalkError) :=
  fun c =>
    match info with
    | None => (Panic, c)
    | Some i =>
        if IsDir i && ShouldWatch path then
          match Println ("Watching " ++ path) c with
          | (_, c1) =>
              match AddWatch path c1 with
              | (_, c2) => (Ret None, c2)
              end
          end
        else (Ret None, c)
    end.

(** [filepath.walk] of the Go library: the callback on the node, then
    on the entries of a directory, in order, the path of an entry being
    [Join(path, fileInfo.Name())]; a directory that cannot be read is
    handed to the callback a second time, with the error; the first error
    that the callback returns stops the walk, but [SkipDir] on a
    directory only skips it. *)
Fixpoint walk (walkFn : string -> option Tree -> option WalkError
                        -> CM (option WalkError))
    (path : string) (info : Tree) (c : Client)
    : Res (option WalkError) * Client :=
  match walkFn path (Some info) None c with
  | (Panic, c1) => (Panic, c1)
  | (Ret (Some e), c1) =>
      match e with
      | SkipDir => if IsDir info then (Ret None, c1) else (Ret (Some e), c1)
      | OtherError _ => (Ret (Some e), c1)
      end
  | (Ret None, c1) =>
      match info with
      | File _ => (Ret None, c1)
      | Dir _ (Some e) _ => walkFn path (Some info) (Some (OtherError e)) c1
      | Dir _ None entries =>
          (fix walkEntries (es : list Tree) (c : Client) :=
             match es with
             | [] => (Ret None, c)
             | t :: es' =>
                 match walk walkFn (join path (name t)) t c with
                 | (Ret None, c') => walkEntries es' c'
                 | other => other
                 end
             end) entries c1
      end
  end.

(** [filepath.Walk root walkFn]; [root] is [None] when [Lstat] fails
    on the root directory. *)
Definition Walk (rootDir : string) (root : option Tree)
    (walkFn : string -> option Tree -> option WalkError
              -> CM (option WalkError)) : CM (option WalkError) :=
  fun c =>
    match root with
    | None => walkFn rootDir None (Some (OtherError "lstat")) c
    | Some info => walk walkFn rootDir info c
    end.

(** How [addWatches] ends: it returns, or [logger.Fatal] exits the
    process, or the process panics. *)
Inductive Ending :=
| Returns
| Exits (err : WalkError)
| Panics.

(** [func (self *Client) addWatches()] *)
Definition addWatches (rootDir : string) (root : option Tree)
    (c : Client) : Ending * Client :=
  match Walk rootDir root addSingleWatch c with
  | (Ret None, c') => (Returns, c')
  | (Ret (Some e), c') => (Exits e, c')
  | (Panic, c') => (Panics, c')
  end.

End WithWatcher.

(** What [filepath.Join dir name] gives for a clean path [dir] other
    than the root of the file system and a plain file name. *)
Definition plainJoin (dir name : string) : string := dir ++ "/" ++ name.

End Walk.

(** ** The debouncer: [Changed] and the goroutines of [syncLater] *)

(** [SYNC_IDLE_SECS] and [time.Second] (in nanoseconds). *)
Definition SYNC_IDLE_SECS : Z := 5.
Definition Second : Z := 1000000000.

Module Debounce.

(** Where a goroutine that runs [syncLater] stands: the statement it
    executes next. [Sync] is entered at [pcSync] (it sets
    [isSyncActive]) and left at [pcInSync] (it clears it); the commands
    run in between and touch no field of the backend. *)
Inductive PC :=
| pcLock          (* [self.syncLock.Lock()] *)
| pcTest          (* [if self.isSyncPending] *)
| pcUnlockReturn  (* [self.syncLock.Unlock(); return] *)
| pcSet           (* [self.isSyncPending = true] *)
| pcUnlock        (* [self.syncLock.Unlock()] *)
| pcLoop          (* [for time.Now().Sub(self.lastEvent) < ...] *)
| pcSync          (* [self.Sync()], entry *)
| pcInSync        (* [self.Sync()], the commands and the exit *)
| pcClear         (* [self.isSyncPending = false] *)
| pcDone.

Section WithHook.

Context {Hook : Type}.

(** One statement of [syncLater] at time [now]; [None] when the
    goroutine cannot move (the mutex is held, or it has returned). *)
Definition stepSyncLater (now : Z) (g : GitBackend Hook) (pc : PC)
    : option (GitBackend Hook * PC) :=
  match pc with
  | pcLock =>
      if syncLock g then None else Some (set_syncLock true g, pcTest)
  | pcTest =>
      Some (g, if isSyncPending g then pcUnlockReturn else pcSet)
  | pcUnlockReturn => Some (set_syncLock false g, pcDone)
  | pcSet => Some (set_isSyncPending true g, pcUnlock)
  | pcUnlock => Some (set_syncLock false g, pcLoop)
  | pcLoop =>
      Some (g, if now - lastEvent g <? SYNC_IDLE_SECS * Second
               then pcLoop       (* [time.Sleep(time.Second)] *)
               else pcSync)
  | pcSync => Some (set_isSyncActive true g, pcInSync)
  | pcInSync => Some (set_isSyncActive false g, pcClear)
  | pcClear => Some (set_isSyncPending false g, pcDone)
  | pcDone => None
  end.

(** A goroutine is a debounce task from the moment it has set
    [isSyncPending] until it has cleared it. *)
Definition isTask (pc : PC) : bool :=
  match pc with
  | pcUnlock | pcLoop | pcSync | pcInSync | pcClear => true
  | _ => false
  end.

(** The goroutine holds the mutex. *)
Definition holdsLock (pc : PC) : bool :=
  match pc with
  | pcTest | pcUnlockReturn | pcSet | pcUnlock => true
  | _ => false
  end.

(** The backend after a call of [Changed], and the goroutines that
    the call started. *)
Definition callChanged (now : Z) (filename : string)
    (g : GitBackend Hook) : GitBackend Hook * list PC :=
  let st := snd (Changed now filename {| backend := g; trace := [] |}) in
  (backend st,
   flat_map (fun r => match r with
                      | GoSyncLater => [pcLock]
                      | GoPushHook _ => []
                      end) (spawns (trace st))).

(** *** Any interleaving *)

(** The backend, the goroutines of [syncLater] started so far, and
    the times at which one of them entered [Sync]. *)
Record System := {
  shared : GitBackend Hook;
  threads : list PC;
  syncStarts : list Z
}.

Inductive Action :=
| ActChanged (now : Z) (filename : string)
    (* the event loop calls [Changed] *)
| ActStep (now : Z) (tid : nat)
    (* goroutine [tid] executes its next statement *)
| ActLoopSync (entering : bool).
    (* a [Sync] called by the event loop sets or clears [isSyncActive] *)

Fixpoint setNth {A} (n : nat) (x : A) (l : list A) : list A :=
  match l, n with
  | [], _ => []
  | _ :: l', O => x :: l'
  | y :: l', S n' => y :: setNth n' x l'
  end.

Definition act (s : System) (a : Action) : System :=
  match a with
  | ActChanged now filename =>
      let '(g, new) := callChanged now filename (shared s) in
      {| shared := g; threads := threads s ++ new;
         syncStarts := syncStarts s |}
  | ActStep now tid =>
      match nth_error (threads s) tid with
      | None => s
      | Some pc =>
          match stepSyncLater now (shared s) pc with
          | None => s
          | Some (g, pc') =>
              {| shared := g; threads := setNth tid pc' (threads s);
                 syncStarts :=
                   match pc with
                   | pcSync => syncStarts s ++ [now]
                   | _ => syncStarts s
                   end |}
          end
      end
  | ActLoopSync entering =>
      {| shared := set_isSyncActive entering (shared s);
         threads := threads s; syncStarts := syncStarts s |}
  end.

Definition runActions (s : System) (acts : list Action) : System :=
  fold_left act acts s.

Definition initial (g : GitBackend Hook) : System :=
  {| shared := g; threads := []; syncStarts := [] |}.

(** The number of debounce tasks. *)
Definition tasks (s : System) : nat :=
  List.length (filter isTask (threads s)).

(** What every interleaving keeps: one goroutine holds the mutex when it
    is held and none when it is free; one goroutine is a debounce task
    when [isSyncPending] is set and none when it is clear; and while the
    flag is set no goroutine is about to set it. *)
Definition count (f : PC -> bool) (l : list PC) : nat :=
  List.length (filter f l).

Definition atSet (pc : PC) : bool :=
  match pc with pcSet => true | _ => false end.

Definition Inv (s : System) : Prop :=
  count holdsLock (threads s) = Nat.b2n (syncLock (shared s))
  /\ count isTask (threads s) = Nat.b2n (isSyncPending (shared s))
  /\ (isSyncPending (shared s) = true -> count atSet (threads s) = 0%nat).

(** *** Time *)

(** The daemon on a clock: a goroutine runs as soon as it is started
    or its [time.Sleep] is over, and runs until it sleeps or returns;
    statements take no time, and [Sync] returns at once. The state is
    the backend, the goroutines that have not returned with the time
    at which each runs next, and the times at which [Sync] was
    entered. *)
Record Timed := {
  tshared : GitBackend Hook;
  live : list (PC * Z);
  tstarts : list Z
}.

(** Goroutine at [pc] runs at time [now] until it sleeps (it then
    runs next at [now + Second]), blocks on the mutex, or returns. *)
Fixpoint runThread (fuel : nat) (now : Z) (g : GitBackend Hook)
    (pc : PC) (starts : list Z)
    : GitBackend Hook * option (PC * Z) * list Z :=
  match fuel with
  | O => (g, Some (pc, now), starts)
  | S fuel' =>
      match stepSyncLater now g pc with
      | None =>
          match pc with
          | pcDone => (g, None, starts)
          | _ => (g, Some (pc, now), starts)
          end
      | Some (g', pc') =>
          match pc, pc' with
          | pcLoop, pcLoop => (g', Some (pcLoop, now + Second), starts)
          | pcSync, _ => runThread fuel' now g' pc' (starts ++ [now])
          | _, _ => runThread fuel' now g' pc' starts
          end
      end
  end.

(** The goroutine that runs first, and the others. *)
Fixpoint earliest (l : list (PC * Z)) : option ((PC * Z) * list (PC * Z)) :=
  match l with
  | [] => None
  | x :: l' =>
      match earliest l' with
      | None => Some (x, [])
      | Some (y, rest) =>
          if snd x <=? snd y then Some (x, l')
          else Some (y, x :: rest)
      end
  end.

Definition runEarliest (s : Timed) (th : PC * Z) (rest : list (PC * Z))
    : Timed :=
  let '(g, th', starts) :=
    runThread 10 (snd th) (tshared s) (fst th) (tstarts s) in
  {| tshared := g;
     live := match th' with Some t => t :: rest | None => rest end;
     tstarts := starts |}.

Definition deliver (s : Timed) (now : Z) (filename : string) : Timed :=
  let '(g, new) := callChanged now filename (tshared s) in
  {| tshared := g;
     live := live s ++ map (fun pc => (pc, now)) new;
     tstarts := tstarts s |}.

(** One move of the clock: the goroutine that is due first runs, or,
    when the next file event comes before, [Changed] is called for
    it. [None] when nothing is left to do. *)
Definition tick (s : Timed) (events : list (Z * string))
    : option (Timed * list (Z * string)) :=
  match earliest (live s), events with
  | None, [] => None
  | None, (t, f) :: events' => Some (deliver s t f, events')
  | Some (th, rest), [] => Some (runEarliest s th rest, [])
  | Some (th, rest), (t, f) :: events' =>
      if snd th <=? t then Some (runEarliest s th rest, events)
      else Some (deliver s t f, events')
  end.

Fixpoint drive (fuel : nat) (s : Timed) (events : list (Z * string))
    : option Timed :=
  match tick s events with
  | None => Some s
  | Some (s', events') =>
      match fuel with
      | O => None
      | S fuel' => drive fuel' s' events'
      end
  end.

Definition idle (g : GitBackend Hook) : Timed :=
  {| tshared := g; live := []; tstarts := [] |}.

(** From [s] with [events] to come, the clock gets to [s'] with
    [events'] to come. *)
Definition leads (s : Timed) (events : list (Z * string))
    (s' : Timed) (events' : list (Z * string)) : Prop :=
  exists n, forall fuel, drive (n + fuel) s events = drive fuel s' events'.

(** The backend at rest (mutex free, no [Sync] running), with the flag
    [pending] and the last event at [l]. *)
Definition backendAt (gp rd : string) (hk : option Hook) (pending : bool)
    (l : Z) : GitBackend Hook :=
  {| gitPath := gp; rootDir := rd; syncLock := false;
     isSyncPending := pending; isSyncActive := false;
     lastEvent := l; pushHook := hk |}.

(** One debounce task asleep until [w], no [Sync] yet. *)
Definition waitingAt (gp rd : string) (hk : option Hook) (l w : Z) : Timed :=
  {| tshared := backendAt gp rd hk true l;
     live := [(pcLoop, w)]; tstarts := [] |}.

(** All goroutines have returned, after one [Sync] entered at [w]. *)
Definition finishedAt (gp rd : string) (hk : option Hook) (l w : Z) : Timed :=
  {| tshared := backendAt gp rd hk false l;
     live := []; tstarts := [w] |}.

End WithHook.

(** A burst: the events come in order of time, each less than the idle
    window after the one before, for files that are not filtered. *)
Fixpoint burstFrom (t : Z) (events : list (Z * string)) : Prop :=
  match events with
  | [] => True
  | (t', f) :: rest =>
      t <= t' /\ t' - t < SYNC_IDLE_SECS * Second /\ isGit f = false
      /\ burstFrom t' rest
  end.

Definition burst (events : list (Z * string)) : Prop :=
  match events with
  | [] => False
  | (t, f) :: rest => isGit f = false /\ burstFrom t rest
  end.

Definition lastTime (events : list (Z * string)) : Z :=
  fst (last events (0, "")).

(** The time of the last of [events], or [l] when there is none. *)
Definition lastFrom (l : Z) (events : list (Z * string)) : Z :=
  fst (last events (l, "")).

(** The next event, if any, is not before [t]. *)
Definition notBefore (t : Z) (events : list (Z * string)) : Prop :=
  match events with
  | [] => True
  | (t', _) :: _ => t <= t'
  end.

End Debounce.

(** ** Vocabulary of the statements *)

(** The status summary as the specification words it: one item per
    category that has entries, the items joined by one space. *)
Definition specItem (label : string) (names : list string) : list string :=
  match names with
  | [] => []
  | [x] => [(label ++ ": " ++ x)%string]
  | _ :: _ :: _ => [(label ++ ": " ++ Itoa (List.length names))%string]
  end.

Definition specSummary (created modified deleted : list string) : string :=
  Join (specItem "New" created ++ specItem "Edit" modified
          ++ specItem "Del" deleted) " ".

(** A line of the output of a status query that the loop of [status]
    reads without a panic: empty, or with a space after a first field
    that is not empty (after the two replacements). *)
Definition lineOk (line : string) : bool :=
  (String.length line =? 0)%nat ||
  match SplitByte (ReplaceByte (ReplaceDoubleSpace line) tab " ") " " with
  | String _ _ :: _ :: _ => true
  | _ => false
  end.

Definition wellFormedStatus (output : string) : bool :=
  forallb lineOk (SplitByte output lf).

Section Vocabulary.

Context {Hook : Type}.
Variable run : Oracle.

(** The state with more trace. *)
Definition extend (st : St Hook) (new : list (Entry Hook)) : St Hook :=
  {| backend := backend st; trace := trace st ++ new |}.

(** The command lines of [Sync], in the order of its text. *)
Definition fetchArgv (g : GitBackend Hook) := [gitPath g; "fetch"].
Definition diffArgv (g : GitBackend Hook) :=
  [gitPath g; "diff"; "origin/master"; "--name-status"].
Definition mergeArgv (g : GitBackend Hook) :=
  [gitPath g; "merge"; "origin/master"].
Definition addArgv (g : GitBackend Hook) := [gitPath g; "add"; "--all"].
Definition statusArgv (g : GitBackend Hook) :=
  [gitPath g; "status"; "--porcelain"].
Definition commitArgv (g : GitBackend Hook) :=
  [gitPath g; "commit"; "--all"; "--message=loftus"].
Definition pushArgv (g : GitBackend Hook) := [gitPath g; "push"].

Definition syncCommands (g : GitBackend Hook) : list (list string) :=
  [fetchArgv g; diffArgv g; mergeArgv g; addArgv g; statusArgv g;
   commitArgv g; pushArgv g].

(** The answer of the world to a command line of backend [g]. *)
Definition answer (g : GitBackend Hook) (argv : list string) : CmdResult :=
  run (rootDir g) argv.

Definition succeeds (g : GitBackend Hook) (argv : list string) : Prop :=
  err (answer g argv) = None.

Definition exitsWith (g : GitBackend Hook) (argv : list string)
    (e : ExitError) : Prop :=
  err (answer g argv) = Some e.

Definition readable (g : GitBackend Hook) (argv : list string) : Prop :=
  wellFormedStatus (out (answer g argv)) = true.

(** The [GitError] that [git] builds when the command exits with [e]. *)
Definition gitErrorOf (g : GitBackend Hook) (argv : list string)
    (e : ExitError) : GitError :=
  {| cmd := Join argv " "; internalError := e;
     output := out (answer g argv); status := exitStatus e |}.

(** What [git] returns for a command line. *)
Definition gitResult (g : GitBackend Hook) (argv : list string)
    : option GitError :=
  match err (answer g argv) with
  | None => None
  | Some e => Some (gitErrorOf g argv e)
  end.

(** The ways through [Sync]: the step at which it stops. *)
Inductive Path :=
| FetchFailed
| DiffPanic
| MergeFailed
| AddFailed
| StatusPanic
| CommitFailed
| PushFailed
| Completed.

Definition isNone {A} (o : option A) : bool :=
  match o with None => true | Some _ => false end.

Definition pathOf (g : GitBackend Hook) : Path :=
  if negb (isNone (gitResult g (fetchArgv g))) then FetchFailed
  else if negb (wellFormedStatus (out (answer g (diffArgv g)))) then DiffPanic
  else if negb (isNone (gitResult g (mergeArgv g))) then MergeFailed
  else if negb (isNone (gitResult g (addArgv g))) then AddFailed
  else if negb (wellFormedStatus (out (answer g (statusArgv g))))
       then StatusPanic
  else if negb (isNone (gitResult g (commitArgv g))) then CommitFailed
  else if negb (isNone (gitResult g (pushArgv g))) then PushFailed
  else Completed.

Definition pathResult (g : GitBackend Hook) (p : Path)
    : Res (option GitError) :=
  match p with
  | FetchFailed => Ret (gitResult g (fetchArgv g))
  | DiffPanic => Panic
  | MergeFailed => Ret (gitResult g (mergeArgv g))
  | AddFailed => Ret (gitResult g (addArgv g))
  | StatusPanic => Panic
  | CommitFailed => Ret (gitResult g (commitArgv g))
  | PushFailed => Ret (gitResult g (pushArgv g))
  | Completed => Ret None
  end.

Definition pathLength (p : Path) : nat :=
  match p with
  | FetchFailed => 1
  | DiffPanic => 2
  | MergeFailed => 3
  | AddFailed => 4
  | StatusPanic => 5
  | CommitFailed => 6
  | PushFailed => 7
  | Completed => 7
  end.

Definition pathSpawns (g : GitBackend Hook) (p : Path)
    : list (Goroutine Hook) :=
  match p, pushHook g with
  | Completed, Some h => [GoPushHook h]
  | _, _ => []
  end.

Definition pathPanics (p : Path) : bool :=
  match p with DiffPanic | StatusPanic => true | _ => false end.

Definition pathEnd (p : Path) : list (Entry Hook) :=
  match p with
  | CommitFailed | Completed =>
      [{| active := false; effect := Log "* Sync end" |}]
  | _ => []
  end.

(** What a piece of trace did: every effect with [isSyncActive] equal
    to [b], these commands run and these goroutines started. *)
Definition during (b : bool) (new : list (Entry Hook))
    (cmds : list (list string)) (gos : list (Goroutine Hook)) : Prop :=
  Forall (fun en => active en = b) new
  /\ execs new = cmds /\ spawns new = gos.

End Vocabulary.

(** The commands of the pipeline, which [Sync] runs through [git], and
    the queries, which [displayStatus] runs through [status]. *)
Definition pipeline {Hook} (g : GitBackend Hook) : list (list string) :=
  [fetchArgv g; mergeArgv g; addArgv g; commitArgv g; pushArgv g].



Section Reaching.

Context {Hook : Type}.
Variable run : Oracle.

(** [Sync] gets as far as the commit: fetch, merge and add succeed, and
    the output of the two queries is read without a panic. *)
Definition reachesCommit (g : GitBackend Hook) : Prop :=
  succeeds run g (fetchArgv g) /\ readable run g (diffArgv g)
  /\ succeeds run g (mergeArgv g) /\ succeeds run g (addArgv g)
  /\ readable run g (statusArgv g).

(** [Sync] gets as far as the push: the commit succeeds too. *)
Definition reachesPush (g : GitBackend Hook) : Prop :=
  reachesCommit g /\ succeeds run g (commitArgv g).

(** The fetch exits with [e], or the fetch succeeds, the diff is read
    and the merge exits with [e]. *)
Definition pullFailsAt (g : GitBackend Hook) (argv : list string)
    (e : ExitError) : Prop :=
  (argv = fetchArgv g /\ exitsWith run g (fetchArgv g) e)
  \/ (argv = mergeArgv g /\ succeeds run g (fetchArgv g)
      /\ readable run g (diffArgv g) /\ exitsWith run g (mergeArgv g) e).

End Reaching.

(** ** Worlds for the examples *)

Module Examples.

Definition exit (n : Z) : ExitError :=
  {| exitStatus := n; errorText := "exit status" |}.

Definition quiet : CmdResult := {| out := ""; err := None |}.

Definition second (argv : list string) : string := nth 1 argv "".

(** Every command succeeds and prints nothing, but [c], which exits
    with status [n]. *)
Definition failing (c : string) (n : Z) : Oracle :=
  fun _ argv =>
    if String.eqb (second argv) c
    then {| out := "fatal"; err := Some (exit n) |}
    else quiet.

Definition allGood : Oracle := fun _ _ => quiet.

Definition repo : GitBackend nat :=
  set_pushHook (Some 7%nat) (NewGitBackend "/repo" "/usr/bin/git").

Definition fresh : St nat := {| backend := repo; trace := [] |}.

(** Two file events one after the other; the goroutine of the second
    finds the mutex held, then the flag set, and returns. *)
Definition twoEvents : list (Debounce.Action) :=
  [Debounce.ActChanged 0 "a.txt"; Debounce.ActChanged 1000 "b.txt";
   Debounce.ActStep 1000 0; Debounce.ActStep 1000 0;
   Debounce.ActStep 1000 1;
   Debounce.ActStep 1000 0; Debounce.ActStep 1000 0;
   Debounce.ActStep 2000 1; Debounce.ActStep 2000 1;
   Debounce.ActStep 2000 1].

(** A burst of three file events, 4.5 seconds apart. *)
Definition threeEvents : list (Z * string) :=
  [(0, "a.txt"); (4500000000, "b.txt"); (9000000000, "a.txt")].

End Examples.

(** ** More of the backend: what [status] reads *)

(** The fields of a line: [lineParts] in the loop of [status]. *)
Definition fieldsOf (line : string) : list string :=
  SplitByte (ReplaceByte (ReplaceDoubleSpace line) tab " ") " ".

Definition isBlank (c : ascii) : bool := Ascii.eqb c " " || Ascii.eqb c tab.

Fixpoint hasBlank (s : string) : bool :=
  match s with
  | EmptyString => false
  | String c s' => isBlank c || hasBlank s'
  end.

(** A line that is empty, or that starts with a byte other than a space
    or a tab and has a space or a tab further on. *)
Definition plainLine (line : string) : bool :=
  match line with
  | EmptyString => true
  | String c _ => negb (isBlank c) && hasBlank line
  end.

(** The second field of a line whose first field starts with a byte
    that satisfies [p]; nothing for another line. *)
Definition named (p : ascii -> bool) (line : string) : list string :=
  if (String.length line =? 0)%nat then []
  else match fieldsOf line with
       | String c _ :: filename :: _ => if p c then [filename] else []
       | _ => []
       end.

Definition pick (p : ascii -> bool) (lines : list string) : list string :=
  flat_map (named p) lines.

Definition isAdded (c : ascii) : bool := Ascii.eqb c "A".
Definition isModified (c : ascii) : bool :=
  Ascii.eqb c "M" || Ascii.eqb c "R".
Definition isDeleted (c : ascii) : bool := Ascii.eqb c "D".

(** The three lists for the output of a status query. *)
Definition statusOf (output : string)
    : list string * list string * list string :=
  let lines := SplitByte output lf in
  (pick isAdded lines, pick isModified lines, pick isDeleted lines).

(** The message of [displayStatus] for the output of a status query. *)
Definition notification (output : string) : string :=
  let '(created, modified, deleted) := statusOf output in
  summary created modified deleted.

(** A piece of trace with log lines only. *)
Definition onlyLogs {Hook} (new : list (Entry Hook)) : Prop :=
  Forall (fun en => match effect en with Log _ => True | _ => False end) new.

(** ** The start of the client *)

(** The first [Sync] of [startClient] and the test after it; the value
    is the text given to [Warn], when [Warn] is called. *)
Definition startupSync {Hook} (run : Oracle) : M Hook (option string) :=
  e <- Sync run ;;
  ret (if warnsAtStartup e then option_map GitError_Error e else None).

(** ** The event loop: [Client.run] *)

Module Loop.

(** Two bits of the mask of an inotify event (Linux: 0x100 and
    0x40000000). *)
Definition IN_CREATE : Z := 256.
Definition IN_ISDIR : Z := 1073741824.

(** [inotify.Event] *)
Record Event := { Mask : Z; Name : string }.

(** What one turn of the [select] receives: an event of the watcher
    (with the time at which [Changed] reads the clock), an error of the
    watcher, or a notification of a peer. *)
Inductive Input :=
| WatchEvent (ev : Event) (now : Z)
| WatchError (e : string)
| Incoming.

Section WithWorld.

Context {Hook : Type}.
Variable run : Oracle.
Variable addWatchErr : string -> option string.
(** The text that [logger.Println(ev)] prints for an event. *)
Variable show : Event -> string.

(** The client (its watcher and its logger) and the backend. *)
Record Daemon := { clientSide : Walk.Client; backendSide : St Hook }.

Definition isCreate (ev : Event) : bool :=
  negb (Z.land (Mask ev) IN_CREATE =? 0).

Definition isDir (ev : Event) : bool :=
  negb (Z.land (Mask ev) IN_ISDIR =? 0).

(** One turn of the loop of [func (self *Client) run()]. *)
Definition turn (i : Input) (d : Daemon) : Res unit * Daemon :=
  match i with
  | WatchEvent ev now =>
      let c1 := snd (Walk.Println (show ev) (clientSide d)) in
      let c2 :=
        if isCreate ev && isDir ev && ShouldWatch (Name ev) then
          snd (Walk.AddWatch addWatchErr (Name ev)
                 (snd (Walk.Println ("Adding watch " ++ Name ev) c1)))
        else c1 in
      let c3 := snd (Walk.Println "Calling Changed" c2) in
      let '(r, st) := Changed now (Name ev) (backendSide d) in
      (r, {| clientSide := c3; backendSide := st |})
  | WatchError e =>
      (Ret tt,
       {| clientSide := snd (Walk.Println ("error: " ++ e) (clientSide d));
          backendSide := backendSide d |})
  | Incoming =>
      let c1 := snd (Walk.Println "Remote update notification"
                       (clientSide d)) in
      match Sync run (backendSide d) with
      | (Ret _, st) => (Ret tt, {| clientSide := c1; backendSide := st |})
      | (Panic, st) => (Panic, {| clientSide := c1; backendSide := st |})
      end
  end.

End WithWorld.

End Loop.

(** ** The startup walk: what the callback is given *)

(** The paths of the directories that the walk hands to the callback, in
    order; a directory that cannot be read is handed over twice. *)
Fixpoint callbackDirs (join : string -> string -> string) (path : string)
    (t : Walk.Tree) : list string :=
  match t with
  | Walk.File _ => []
  | Walk.Dir _ rerr entries =>
      path ::
      match rerr with
      | Some _ => [path]
      | None =>
          (fix go (es : list Walk.Tree) : list string :=
             match es with
             | [] => []
             | t' :: es' =>
                 callbackDirs join (join path (Walk.name t')) t' ++ go es'
             end) entries
      end
  end.

(** The directories that end up watched: those outside the metadata of
    git on which [AddWatch] succeeds. *)
Definition watchable (addWatchErr : string -> option string)
    (path : string) : bool :=
  ShouldWatch path && isNone (addWatchErr path).

(** The client after the callback has been given the directories
    [paths]: a line logged for each one outside the metadata of git, and
    a watch for each of these on which [AddWatch] succeeds. *)
Definition grown (addWatchErr : string -> option string) (c : Walk.Client)
    (paths : list string) : Walk.Client :=
  {| Walk.watched := Walk.watched c ++ filter (watchable addWatchErr) paths;
     Walk.logged := Walk.logged c
                    ++ map (String.append "Watching ")
                         (filter ShouldWatch paths) |}.

(** ** More worlds for the examples *)

Module MoreExamples.

(** The query prints one line of each kind. *)
Definition listingText : string :=
  "A  b.txt" ++ String lf ("M" ++ String tab ("c.txt" ++ String lf
  ("R  old new" ++ String lf ("D  gone" ++ String lf ("?? d" ++ String lf
  ""))))).

Definition listing : Oracle :=
  fun _ _ => {| out := listingText; err := None |}.

(** A debounce task that has come back from [Sync] and has not yet
    cleared the flag. *)
Definition finishing : Debounce.System (Hook := nat) :=
  {| Debounce.shared :=
       set_isSyncPending true (NewGitBackend "/repo" "/usr/bin/git");
     Debounce.threads := [Debounce.pcDone; Debounce.pcClear];
     Debounce.syncStarts := [5000000000] |}.

(** Every command succeeds and prints nothing, but the status query
    prints the line of a path changed in the work tree and not in the
    index, which [git add --all] leaves behind for a submodule with
    changes of its own. *)
Definition dirty : Oracle :=
  fun _ argv =>
    if String.eqb (Examples.second argv) "status"
    then {| out := " M sub" ++ String lf ""; err := None |}
    else Examples.quiet.

(** A file event at time 0; its goroutine becomes the debounce task
    and, five seconds later, leaves the loop: it is about to call
    [Sync]. *)
Definition untilSync : list Debounce.Action :=
  [Debounce.ActChanged 0 "a.txt";
   Debounce.ActStep 0 0; Debounce.ActStep 0 0;
   Debounce.ActStep 0 0; Debounce.ActStep 0 0;
   Debounce.ActStep 5000000000 0].

(** A file event at time 0 and the [Sync] for it, from second 5 to
    second 7; then a file event that [Changed] accepts when [Sync] has
    returned and [isSyncPending] is still set: its goroutine tests the
    flag, the task clears it, both return. *)
Definition lostEvent : list Debounce.Action :=
  untilSync
  ++ [Debounce.ActStep 5000000000 0; Debounce.ActStep 7000000000 0;
      Debounce.ActChanged 7000000000 "b.txt";
      Debounce.ActStep 7000000000 1; Debounce.ActStep 7000000000 1;
      Debounce.ActStep 7000000000 0; Debounce.ActStep 7000000000 1].

(** Two file events one second apart. The goroutine of the first is
    the debounce task and runs [Sync] at second 6; the goroutine of the
    second gets to run only at second 7, when the first has cleared the
    flag. *)
Definition lateGoroutine : list Debounce.Action :=
  [Debounce.ActChanged 0 "a.txt"; Debounce.ActChanged 1000000000 "b.txt";
   Debounce.ActStep 1000000000 0; Debounce.ActStep 1000000000 0;
   Debounce.ActStep 1000000000 0; Debounce.ActStep 1000000000 0;
   Debounce.ActStep 6000000000 0; Debounce.ActStep 6000000000 0;
   Debounce.ActStep 7000000000 0; Debounce.ActStep 7000000000 0;
   Debounce.ActStep 7000000000 1; Debounce.ActStep 7000000000 1;
   Debounce.ActStep 7000000000 1; Debounce.ActStep 7000000000 1;
   Debounce.ActStep 7000000000 1; Debounce.ActStep 7000000000 1;
   Debounce.ActStep 9000000000 1; Debounce.ActStep 9000000000 1].

(** A repository with its metadata and one directory of files. *)
Definition tree : Walk.Tree :=
  Walk.Dir "repo" None
    [Walk.Dir ".git" None [Walk.Dir "objects" None []];
     Walk.Dir "docs" None [Walk.File "a.txt"];
     Walk.File "b.txt"].

End MoreExamples.

(* ================================================================== *)
(** * Properties *)

Example Contains_github : Contains "notes.github.txt" ".git" = true.
Proof. reflexivity. Qed.

Example Split_example : SplitByte "M a.txt" " " = ["M"; "a.txt"].
Proof. reflexivity. Qed.

Example Replace_three_spaces : ReplaceDoubleSpace "a   b" = "a  b".
Proof. reflexivity. Qed.

Example Itoa_12 : Itoa 12 = "12".
Proof. reflexivity. Qed.

(** ** Strings *)

Lemma HasPrefix_iff (s p : string) :
  HasPrefix s p = true <-> exists post, s = (p ++ post)%string.
Proof.
  revert s. induction p as [|a p IH]; intros s.
  - destruct s; simpl; (split; [intros _; eexists; reflexivity | trivial]).
  - destruct s as [|b s]; simpl.
    + split; [discriminate | intros [post H]; discriminate].
    + rewrite andb_true_iff, Ascii.eqb_eq, IH. split.
      * intros [-> [post ->]]. now exists post.
      * intros [post H]. injection H as -> ->. split; [reflexivity | now exists post].
Qed.

Lemma Contains_iff (s sub : string) :
  Contains s sub = true <-> exists pre post, s = (pre ++ sub ++ post)%string.
Proof.
  induction s as [|c s IH].
  - change (Contains "" sub) with (HasPrefix "" sub || false).
    rewrite orb_false_r, HasPrefix_iff. split.
    + intros [post H]. now exists "", post.
    + intros [pre [post H]]. destruct pre; simpl in H.
      * now exists post.
      * discriminate.
  - change (Contains (String c s) sub)
      with (HasPrefix (String c s) sub || Contains s sub).
    rewrite orb_true_iff, HasPrefix_iff, IH. split.
    + intros [[post H] | [pre [post H]]].
      * now exists "", post.
      * exists (String c pre), post. simpl. now rewrite H.
    + intros [pre [post H]]. destruct pre as [|c' pre]; simpl in H.
      * left. now exists post.
      * right. injection H as _ H. now exists pre, post.
Qed.

Lemma append_inj_l (p a b : string) : (p ++ a = p ++ b)%string -> a = b.
Proof.
  induction p as [|c p IH]; simpl; intros H; [assumption|].
  injection H as H. now apply IH.
Qed.

Lemma append_assoc (a b c : string) :
  ((a ++ b) ++ c = a ++ (b ++ c))%string.
Proof. induction a as [|x a IH]; simpl; [reflexivity | now rewrite IH]. Qed.

Lemma append_nil_r (a : string) : (a ++ "")%string = a.
Proof. induction a as [|x a IH]; simpl; [reflexivity | now rewrite IH]. Qed.

(** ** C10: the filter on paths *)

(** C10. The filter of the backend excludes a path exactly when ".git"
    occurs in it somewhere: [ShouldWatch] is [false] exactly for those
    paths, and for each of them [Changed] does nothing at all (no field
    changes, no goroutine starts), whatever the state. A file name that
    merely contains ".git", such as "notes.github.txt", is excluded too. *)
Theorem git_filter_is_substring_test :
  forall (Hook : Type) (filename : string),
    (ShouldWatch filename = false
     <-> exists pre post, filename = (pre ++ ".git" ++ post)%string)
    /\ (forall pre post now (st : St Hook),
          Changed now (pre ++ ".git" ++ post)%string st = (Ret tt, st))
    /\ ShouldWatch "notes.github.txt" = false
    /\ (forall now (st : St Hook),
          Changed now "notes.github.txt" st = (Ret tt, st)).
Proof.
  intros Hook filename.
  assert (G : forall pre post now (st : St Hook),
             Changed now (pre ++ ".git" ++ post)%string st = (Ret tt, st)).
  { intros pre post now st. unfold Changed, bind, get.
    assert (H : isGit (pre ++ ".git" ++ post)%string = true)
      by (apply Contains_iff; now exists pre, post).
    now rewrite H. }
  split; [|split; [exact G|split; [reflexivity|]]].
  - unfold ShouldWatch. rewrite negb_false_iff. apply Contains_iff.
  - intros now st. exact (G "notes" "hub.txt" now st).
Qed.

(** ** C2: the status summary *)

Example summary_one_created : summary ["a.txt"] [] [] = "New: a.txt".
Proof. reflexivity. Qed.

Example summary_two_created_one_modified :
  summary ["a.txt"; "b.txt"] ["c.txt"] [] = "New: 2 Edit: c.txt".
Proof. reflexivity. Qed.

Example summary_all_empty : summary [] [] [] = "".
Proof. reflexivity. Qed.

(** With a created file the message of the code is the summary of the
    specification. *)
Lemma summary_with_created (x : string) (created modified deleted : list string) :
  summary (x :: created) modified deleted
  = specSummary (x :: created) modified deleted.
Proof.
  unfold summary, specSummary.
  destruct created as [|y l], modified as [|m [|m' lm]],
    deleted as [|d [|d' ld]]; cbn [summaryPart specItem app Join];
    cbn [String.append];
    rewrite ?append_assoc; cbn [String.append];
    rewrite ?append_nil_r; reflexivity.
Qed.

(** With no created file and some other file, the message of the code
    is the summary of the specification after one more space. *)
Lemma summary_without_created (modified deleted : list string) :
  modified <> [] \/ deleted <> [] ->
  summary [] modified deleted
  = String " " (specSummary [] modified deleted).
Proof.
  unfold summary, specSummary. intros H.
  destruct modified as [|m [|m' lm]], deleted as [|d [|d' ld]];
    cbn [summaryPart specItem app Join]; cbn [String.append];
    rewrite ?append_assoc; cbn [String.append];
    rewrite ?append_nil_r; try reflexivity.
  destruct H as [H | H]; now destruct H.
Qed.

(** With no file at all the message is empty, and [displayStatus] shows
    nothing. *)
Lemma summary_empty_iff (created modified deleted : list string) :
  summary created modified deleted = ""
  <-> created = [] /\ modified = [] /\ deleted = [].
Proof.
  split.
  - destruct created as [|x [|y l]]; [|discriminate|discriminate].
    destruct modified as [|x [|y l]]; [|discriminate|discriminate].
    destruct deleted as [|x [|y l]]; [|discriminate|discriminate].
    now intros _.
  - now intros (-> & -> & ->).
Qed.

(** C2. Where the code leaves the specification: with no created file, the
    message starts with the space that separates " Edit:" or " Del:" from
    the item before, so for one modified file "c.txt" the code shows
    " Edit: c.txt" where the summary of the specification is
    "Edit: c.txt". The run of [displayStatus] is on the output of
    [git diff --name-status] for that one file. *)
Theorem summary_leading_space :
  summary [] ["c.txt"] [] = " Edit: c.txt"
  /\ specSummary [] ["c.txt"] [] = "Edit: c.txt"
  /\ infos (trace (snd (displayStatus (Hook := unit)
              (fun _ _ => {| out := "M" ++ String tab "c.txt" ++ String lf "";
                             err := None |})
              ["diff"; "origin/master"; "--name-status"]
              {| backend := NewGitBackend "/repo" "/usr/bin/git";
                 trace := [] |})))
     = [" Edit: c.txt"].
Proof. repeat split. Qed.

(** ** C3: the startup walk *)

Module WalkFacts.
Import Walk.

Lemma Tree_nested_ind (P : Tree -> Prop) :
  (forall n, P (File n)) ->
  (forall n e entries, Forall P entries -> P (Dir n e entries)) ->
  forall t, P t.
Proof.
  intros HF HD. fix IH 1. intros [n | n e entries].
  - apply HF.
  - apply HD. induction entries as [|t ts IHts]; constructor.
    + apply IH.
    + exact IHts.
Qed.

(** The closure never returns an error when it is given a node. *)
Lemma addSingleWatch_nil addWatchErr path t err c :
  fst (addSingleWatch addWatchErr path (Some t) err c) = Ret None.
Proof.
  unfold addSingleWatch, Println, AddWatch.
  destruct (IsDir t && ShouldWatch path); [|reflexivity].
  now destruct (addWatchErr path).
Qed.

(** So the walk of a tree never stops early and returns [nil]. *)
Lemma walk_addSingleWatch_nil addWatchErr join t :
  forall path c,
    fst (walk join (addSingleWatch addWatchErr) path t c) = Ret None.
Proof.
  induction t as [n | n e entries IH] using Tree_nested_ind; intros path c.
  - cbn [walk].
    pose proof (addSingleWatch_nil addWatchErr path (File n) None c) as H.
    destruct (addSingleWatch addWatchErr path (Some (File n)) None c)
      as [r c1]. simpl in H. now subst r.
  - cbn [walk].
    pose proof (addSingleWatch_nil addWatchErr path (Dir n e entries) None c)
      as H.
    destruct (addSingleWatch addWatchErr path (Some (Dir n e entries)) None c)
      as [r c1]. simpl in H. subst r.
    destruct e as [msg|].
    + apply addSingleWatch_nil.
    + clear c. revert c1.
      induction IH as [|t ts Ht _ IHts]; intros c1; [reflexivity|].
      specialize (Ht (join path (name t)) c1).
      destruct (walk join (addSingleWatch addWatchErr)
                  (join path (name t)) t c1) as [r c2].
      simpl in Ht. subst r. apply IHts.
Qed.

(** C3. The code does not do what the specification says. When the root
    exists, [addWatches] returns whatever [AddWatch] answers: the error
    of a failed registration is dropped by the callback, the walk goes
    on, and [logger.Fatal] is never reached. With a kernel that refuses
    every watch, the walk of a root with one subdirectory logs both
    directories, watches none, and returns. *)
Theorem addWatches_ignores_failed_registration :
  (forall addWatchErr join rootDir tree c,
      fst (addWatches addWatchErr join rootDir (Some tree) c) = Returns)
  /\ addWatches (fun _ => Some "no space left on device") plainJoin "/repo"
       (Some (Dir "repo" None [Dir "sub" None []; File "a.txt"]))
       {| watched := []; logged := [] |}
     = (Returns,
        {| watched := [];
           logged := ["Watching /repo"; "Watching /repo/sub"] |}).
Proof.
  split; [|reflexivity].
  intros addWatchErr join rootDir tree c. unfold addWatches, Walk.
  pose proof (walk_addSingleWatch_nil addWatchErr join tree rootDir c) as H.
  destruct (walk join (addSingleWatch addWatchErr) rootDir tree c) as [r c'].
  simpl in H. now subst r.
Qed.

End WalkFacts.

(** ** The monad and the trace *)

Section MonadFacts.

Context {Hook : Type}.

Lemma bind_ret {A B} (m : M Hook A) (k : A -> M Hook B) st a st' :
  m st = (Ret a, st') -> bind m k st = k a st'.
Proof. unfold bind. now intros ->. Qed.

Lemma bind_panic {A B} (m : M Hook A) (k : A -> M Hook B) st st' :
  m st = (Panic, st') -> bind m k st = (Panic, st').
Proof. unfold bind. now intros ->. Qed.

Lemma extend_nil (st : St Hook) : extend st [] = st.
Proof. destruct st. unfold extend. simpl. now rewrite app_nil_r. Qed.

Lemma extend_app (st : St Hook) a b :
  extend (extend st a) b = extend st (a ++ b).
Proof. unfold extend. simpl. now rewrite app_assoc. Qed.

Lemma emit_eq (e : Effect Hook) st :
  emit e st
  = (Ret tt, extend st [{| active := isSyncActive (backend st);
                           effect := e |}]).
Proof. reflexivity. Qed.

Lemma execs_app (a b : list (Entry Hook)) :
  execs (a ++ b) = execs a ++ execs b.
Proof. apply flat_map_app. Qed.

Lemma spawns_app (a b : list (Entry Hook)) :
  spawns (a ++ b) = spawns a ++ spawns b.
Proof. apply flat_map_app. Qed.

Lemma execs_head (l : list (Entry Hook)) (a : list string) r :
  execs l = a :: r ->
  exists d b, In {| active := b; effect := Exec d a |} l.
Proof.
  induction l as [|[b e] l IH]; [discriminate|].
  destruct e as [line|d argv|msg|go]; cbn [execs flat_map effect app];
    try (intros H; destruct (IH H) as (d' & b' & IN);
         exists d', b'; now right).
  intros [= -> _]. exists d, b. now left.
Qed.

Lemma during_nil b : during (Hook := Hook) b [] [] [].
Proof. repeat split. constructor. Qed.

Lemma during_app b (n1 n2 : list (Entry Hook)) c1 c2 g1 g2 :
  during b n1 c1 g1 -> during b n2 c2 g2 ->
  during b (n1 ++ n2) (c1 ++ c2) (g1 ++ g2).
Proof.
  intros (F1 & E1 & S1) (F2 & E2 & S2). repeat split.
  - apply Forall_app. now split.
  - now rewrite execs_app, E1, E2.
  - now rewrite spawns_app, S1, S2.
Qed.

Lemma during_log b l :
  during (Hook := Hook) b [{| active := b; effect := Log l |}] [] [].
Proof. repeat split. now constructor. Qed.

Lemma during_info b l :
  during (Hook := Hook) b [{| active := b; effect := Info l |}] [] [].
Proof. repeat split. now constructor. Qed.

Lemma during_exec b d argv :
  during (Hook := Hook) b [{| active := b; effect := Exec d argv |}]
    [argv] [].
Proof. repeat split. now constructor. Qed.

Lemma during_go b r :
  during (Hook := Hook) b [{| active := b; effect := Go r |}] [] [r].
Proof. repeat split. now constructor. Qed.

(** [when b (emit e)] *)
Lemma when_emit_run (c : bool) (e : Effect Hook) st :
  exists new,
    when c (emit e) st = (Ret tt, extend st new)
    /\ Forall (fun en => active en = isSyncActive (backend st)) new
    /\ execs new = match e with Exec _ argv => if c then [argv] else []
                              | _ => [] end
    /\ spawns new = match e with Go r => if c then [r] else []
                               | _ => [] end.
Proof.
  destruct c; simpl.
  - eexists. split; [apply emit_eq|]. split; [now constructor|].
    now destruct e.
  - exists []. rewrite extend_nil. split; [reflexivity|].
    split; [constructor|]. now destruct e.
Qed.

End MonadFacts.

(** ** The operations of the backend *)

Section BackendFacts.

Context {Hook : Type}.
Variable run : Oracle.

Lemma statusLines_run (lines : list string) :
  forall created modified deleted (st : St Hook),
  exists r new,
    statusLines lines created modified deleted st = (r, extend st new)
    /\ during (isSyncActive (backend st)) new [] []
    /\ (forallb lineOk lines = true -> exists v, r = Ret v)
    /\ (forallb lineOk lines = false -> r = Panic).
Proof.
  induction lines as [|line rest IH]; intros created modified deleted st.
  - exists (Ret (created, modified, deleted)), [].
    rewrite extend_nil. repeat split; try constructor.
    + intros _. now eexists.
    + discriminate.
  - cbn [statusLines forallb]. unfold lineOk.
    destruct (String.length line =? 0)%nat; [apply IH|].
    cbn [orb].
    destruct (SplitByte (ReplaceByte (ReplaceDoubleSpace line) tab " ") " ")
      as [|field [|filename more]].
    + exists Panic, []. rewrite extend_nil.
      split; [reflexivity|]. split; [apply during_nil|].
      split; [discriminate | reflexivity].
    + exists Panic, []. rewrite extend_nil.
      split; [reflexivity|]. split; [apply during_nil|].
      split; [destruct field; discriminate | reflexivity].
    + destruct field as [|c field'].
      * exists Panic, []. rewrite extend_nil.
        split; [reflexivity|]. split; [apply during_nil|].
        split; [discriminate | reflexivity].
      * cbn [andb].
        assert (LOG : forall l,
          exists r new,
            (emit (Log l) ;;; statusLines rest created modified deleted) st
            = (r, extend st new)
            /\ during (isSyncActive (backend st)) new [] []
            /\ (forallb lineOk rest = true -> exists v, r = Ret v)
            /\ (forallb lineOk rest = false -> r = Panic)).
        { intros l.
          destruct (IH created modified deleted
                      (extend st [{| active := isSyncActive (backend st);
                                     effect := Log l |}]))
            as (r & new & E & D & OK & KO).
          exists r, ({| active := isSyncActive (backend st);
                        effect := Log l |} :: new).
          split.
          - erewrite bind_ret by apply emit_eq.
            rewrite E, extend_app. reflexivity.
          - split; [|now split].
            apply (during_app _ [_] new [] [] [] []);
              [apply during_log | exact D]. }
        destruct (Ascii.eqb c "A"); [apply IH|].
        destruct (Ascii.eqb c "M"); [apply IH|].
        destruct (Ascii.eqb c "R"); [apply IH|].
        destruct (Ascii.eqb c "D"); [apply IH|].
        destruct (Ascii.eqb c "?"); apply LOG.
Qed.

Lemma status_run (args : list string) (st : St Hook) :
  let g := backend st in
  exists r new,
    status_ run args st = (r, extend st new)
    /\ during (isSyncActive g) new [gitPath g :: args] []
    /\ (wellFormedStatus (out (answer run g (gitPath g :: args))) = true
        -> exists v, r = Ret v)
    /\ (wellFormedStatus (out (answer run g (gitPath g :: args))) = false
        -> r = Panic).
Proof.
  intros g. unfold status_.
  erewrite bind_ret by reflexivity.
  erewrite bind_ret by apply emit_eq.
  erewrite bind_ret by apply emit_eq.
  rewrite extend_app. fold g.
  set (r0 := run (rootDir g) (gitPath g :: args)).
  set (pre := _ ++ _).
  assert (Dpre : during (isSyncActive g) pre [gitPath g :: args] []).
  { subst pre. split; [repeat constructor | split; reflexivity]. }
  assert (E1 : exists new1,
    (match err r0 with
     | Some e => emit (Log (errorText e))
     | None => ret tt
     end) (extend st pre) = (Ret tt, extend st (pre ++ new1))
    /\ during (isSyncActive g) new1 [] []).
  { destruct (err r0) as [e|].
    - eexists. rewrite emit_eq, extend_app. split; [reflexivity|].
      apply during_log.
    - exists []. rewrite app_nil_r. split; [reflexivity | apply during_nil]. }
  destruct E1 as (new1 & E1 & D1).
  erewrite bind_ret by exact E1.
  destruct (when_emit_run (0 <? String.length (out r0))%nat (Log (out r0))
              (extend st (pre ++ new1))) as (new2 & E2 & F2 & X2 & S2).
  erewrite bind_ret by exact E2. rewrite extend_app.
  destruct (statusLines_run (SplitByte (out r0) lf) [] [] []
              (extend st ((pre ++ new1) ++ new2)))
    as (r & new3 & E3 & D3 & OK & KO).
  exists r, (((pre ++ new1) ++ new2) ++ new3).
  split; [now rewrite E3, extend_app|].
  split; [|split; assumption].
  apply (during_app _ _ new3 [_] [] [] []); [|exact D3].
  apply (during_app _ _ new2 [_] [] [] []); [|now repeat split].
  apply (during_app _ _ new1 [_] [] [] []); assumption.
Qed.

Lemma displayStatus_run (args : list string) (st : St Hook) :
  let g := backend st in
  exists new,
    displayStatus run args st
    = ((if wellFormedStatus (out (answer run g (gitPath g :: args)))
        then Ret tt else Panic), extend st new)
    /\ during (isSyncActive g) new [gitPath g :: args] [].
Proof.
  intros g. unfold displayStatus.
  destruct (status_run args st) as (r & new & E & D & OK & KO). fold g in D, OK, KO.
  destruct (wellFormedStatus (out (answer run g (gitPath g :: args)))).
  - destruct OK as [[[created modified] deleted] ->]; [reflexivity|].
    erewrite bind_ret by exact E.
    destruct (when_emit_run
                (negb (String.length (summary created modified deleted) =? 0)%nat)
                (Info (summary created modified deleted)) (extend st new))
      as (new2 & E2 & F2 & X2 & S2).
    exists (new ++ new2). rewrite E2, extend_app. split; [reflexivity|].
    apply (during_app _ new new2 [_] [] [] []); [exact D | now repeat split].
  - rewrite KO in E by reflexivity.
    erewrite bind_panic by exact E. now exists new.
Qed.

Lemma git_run (gitCmd : string) (args : list string) (st : St Hook) :
  let g := backend st in
  exists new,
    git run gitCmd args st
    = (Ret (gitResult run g (gitPath g :: gitCmd :: args)), extend st new)
    /\ during (isSyncActive g) new [gitPath g :: gitCmd :: args] [].
Proof.
  intros g. unfold git.
  erewrite bind_ret by reflexivity.
  erewrite bind_ret by apply emit_eq.
  erewrite bind_ret by apply emit_eq.
  rewrite extend_app. fold g.
  unfold gitResult, answer, gitErrorOf, answer.
  set (r0 := run (rootDir g) (gitPath g :: gitCmd :: args)).
  set (pre := _ ++ _).
  assert (Dpre : during (isSyncActive g) pre [gitPath g :: gitCmd :: args] []).
  { subst pre. split; [repeat constructor | split; reflexivity]. }
  destruct (when_emit_run (0 <? String.length (out r0))%nat (Log (out r0))
              (extend st pre)) as (new2 & E2 & F2 & X2 & S2).
  erewrite bind_ret by exact E2. rewrite extend_app.
  assert (D2 : during (isSyncActive g) (pre ++ new2)
                 [gitPath g :: gitCmd :: args] []).
  { apply (during_app _ _ new2 [_] [] [] []); [exact Dpre | now repeat split]. }
  destruct (err r0) as [e|].
  - destruct (when_emit_run (negb (exitStatus e =? 1)) (Log (errorText e))
                (extend st (pre ++ new2))) as (new3 & E3 & F3 & X3 & S3).
    erewrite bind_ret by exact E3. rewrite extend_app.
    eexists. split; [reflexivity|].
    apply (during_app _ _ new3 [_] [] [] []); [exact D2 | now repeat split].
  - eexists. split; [reflexivity | exact D2].
Qed.

End BackendFacts.

(** ** [Sync], way by way *)

Section SyncFacts.

Context {Hook : Type}.
Variable run : Oracle.

Lemma push_run (st : St Hook) :
  let g := backend st in
  exists new,
    push run st = (Ret (gitResult run g (pushArgv g)), extend st new)
    /\ during (isSyncActive g) new [pushArgv g]
         (match gitResult run g (pushArgv g), pushHook g with
          | None, Some h => [GoPushHook h]
          | _, _ => []
          end).
Proof.
  intros g. unfold push.
  destruct (git_run run "push" [] st) as (new & E & D). fold g in E, D.
  erewrite bind_ret by exact E.
  erewrite bind_ret by reflexivity.
  change (backend (extend st new)) with g.
  change [gitPath g; "push"] with (pushArgv g) in *.
  destruct (gitResult run g (pushArgv g)) as [ge|].
  - exists new. erewrite bind_ret by reflexivity. now split.
  - destruct (pushHook g) as [h|].
    + erewrite bind_ret by apply emit_eq. rewrite extend_app.
      eexists. split; [reflexivity|].
      apply (during_app _ new [_] [_] [] [] [_]); [exact D | apply during_go].
    + exists new. erewrite bind_ret by reflexivity. now split.
Qed.

Lemma pull_run (st : St Hook) :
  let g := backend st in
  exists new,
    pull run st
    = (match gitResult run g (fetchArgv g) with
       | Some e => Ret (Some e)
       | None =>
           if wellFormedStatus (out (answer run g (diffArgv g)))
           then Ret (gitResult run g (mergeArgv g))
           else Panic
       end, extend st new)
    /\ during (isSyncActive g) new
         (match gitResult run g (fetchArgv g) with
          | Some e => [fetchArgv g]
          | None =>
              if wellFormedStatus (out (answer run g (diffArgv g)))
              then [fetchArgv g; diffArgv g; mergeArgv g]
              else [fetchArgv g; diffArgv g]
          end) [].
Proof.
  intros g. unfold pull.
  destruct (git_run run "fetch" [] st) as (n1 & E1 & D1). fold g in E1, D1.
  change [gitPath g; "fetch"] with (fetchArgv g) in *.
  erewrite bind_ret by exact E1.
  destruct (gitResult run g (fetchArgv g)) as [ge|].
  - now exists n1.
  - destruct (displayStatus_run run ["diff"; "origin/master"; "--name-status"]
                (extend st n1)) as (n2 & E2 & D2).
    change (backend (extend st n1)) with g in E2, D2.
    change (gitPath g :: ["diff"; "origin/master"; "--name-status"])
      with (diffArgv g) in *.
    destruct (wellFormedStatus (out (answer run g (diffArgv g)))).
    + erewrite bind_ret by exact E2. rewrite extend_app.
      destruct (git_run run "merge" ["origin/master"] (extend st (n1 ++ n2)))
        as (n3 & E3 & D3).
      change (backend (extend st (n1 ++ n2))) with g in E3, D3.
      change [gitPath g; "merge"; "origin/master"] with (mergeArgv g) in *.
      rewrite E3, extend_app. eexists. split; [reflexivity|].
      apply (during_app _ _ n3 [_; _] [_] [] []); [|exact D3].
      apply (during_app _ n1 n2 [_] [_] [] []); assumption.
    + erewrite bind_panic by exact E2. rewrite extend_app.
      eexists. split; [reflexivity|].
      apply (during_app _ n1 n2 [_] [_] [] []); assumption.
Qed.

Lemma Sync_run (g : GitBackend Hook) (tr : list (Entry Hook)) :
  let p := pathOf run g in
  exists mid,
    Sync run {| backend := g; trace := tr |}
    = (pathResult run g p,
       {| backend := set_isSyncActive (pathPanics p) g;
          trace := tr ++ {| active := isSyncActive g;
                            effect := Log "* Sync start" |}
                        :: mid ++ pathEnd p |})
    /\ during true mid (firstn (pathLength p) (syncCommands g))
         (pathSpawns g p).
Proof.
  intros p. subst p. unfold Sync.
  erewrite bind_ret by apply emit_eq.
  erewrite bind_ret by reflexivity.
  set (start := {| active := isSyncActive g; effect := Log "* Sync start" |}).
  set (g1 := set_isSyncActive true g).
  set (st1 := {| backend := g1; trace := tr ++ [start] |}).
  match goal with
  | |- exists mid, _ ?st = _ /\ _ => change st with st1
  end.
  assert (FIN : forall (r : option GitError) new,
             (modify (set_isSyncActive false) ;;; ret r) (extend st1 new)
             = (Ret r, {| backend := set_isSyncActive false g;
                          trace := tr ++ start :: new ++ [] |})).
  { intros r new. unfold bind, modify, ret, extend. simpl.
    now rewrite <- app_assoc, app_nil_r. }
  assert (FINLOG : forall (r : option GitError) new,
             (modify (set_isSyncActive false) ;;;
              emit (Log "* Sync end") ;;; ret r) (extend st1 new)
             = (Ret r, {| backend := set_isSyncActive false g;
                          trace := tr ++ start :: new
                                   ++ [{| active := false;
                                          effect := Log "* Sync end" |}] |})).
  { intros r new. unfold bind, modify, ret, emit, extend. simpl.
    now rewrite <- !app_assoc. }
  assert (STOP : forall new,
             (Panic (A := option GitError), extend st1 new)
             = (Panic, {| backend := set_isSyncActive true g;
                          trace := tr ++ start :: new ++ [] |})).
  { intros new. unfold extend. simpl.
    now rewrite <- app_assoc, app_nil_r. }
  unfold pathOf.
  destruct (pull_run st1) as (n1 & E1 & D1).
  change (backend st1) with g1 in E1, D1.
  change (gitResult run g1 (fetchArgv g1))
    with (gitResult run g (fetchArgv g)) in E1, D1.
  change (answer run g1 (diffArgv g1))
    with (answer run g (diffArgv g)) in E1, D1.
  change (gitResult run g1 (mergeArgv g1))
    with (gitResult run g (mergeArgv g)) in E1, D1.
  change (fetchArgv g1) with (fetchArgv g) in D1.
  change (diffArgv g1) with (diffArgv g) in D1.
  change (mergeArgv g1) with (mergeArgv g) in D1.
  change (isSyncActive g1) with true in D1.
  destruct (gitResult run g (fetchArgv g)) as [e1|] eqn:R1; cbn [isNone negb].
  { erewrite bind_ret by exact E1. cbv beta iota. rewrite FIN.
    exists n1. split; [cbn [pathResult]; now rewrite R1 | exact D1]. }
  destruct (wellFormedStatus (out (answer run g (diffArgv g)))) eqn:W1;
    cbn [negb].
  2:{ erewrite bind_panic by exact E1. rewrite STOP.
      exists n1. split; [reflexivity | exact D1]. }
  erewrite bind_ret by exact E1.
  destruct (gitResult run g (mergeArgv g)) as [e2|] eqn:R2; cbn [isNone negb];
    cbv beta iota.
  { rewrite FIN. exists n1.
    split; [cbn [pathResult]; now rewrite R2 | exact D1]. }
  (* add *)
  destruct (git_run run "add" ["--all"] (extend st1 n1)) as (n2 & E2 & D2).
  change (backend (extend st1 n1)) with g1 in E2, D2.
  change (gitResult run g1 (gitPath g1 :: "add" :: ["--all"]))
    with (gitResult run g (addArgv g)) in E2.
  change (during true n2 [addArgv g] []) in D2.
  erewrite bind_ret by exact E2. rewrite extend_app.
  pose proof (during_app _ _ _ _ _ _ _ D1 D2) as D12. cbn [app] in D12.
  destruct (gitResult run g (addArgv g)) as [e3|] eqn:R3; cbn [isNone negb];
    cbv beta iota.
  { rewrite FIN. eexists.
    split; [cbn [pathResult]; now rewrite R3 | exact D12]. }
  (* status *)
  destruct (displayStatus_run run ["status"; "--porcelain"]
              (extend st1 (n1 ++ n2))) as (n3 & E3 & D3).
  change (backend (extend st1 (n1 ++ n2))) with g1 in E3, D3.
  change (answer run g1 (gitPath g1 :: ["status"; "--porcelain"]))
    with (answer run g (statusArgv g)) in E3.
  change (during true n3 [statusArgv g] []) in D3.
  pose proof (during_app _ _ _ _ _ _ _ D12 D3) as D123. cbn [app] in D123.
  destruct (wellFormedStatus (out (answer run g (statusArgv g)))) eqn:W2;
    cbn [negb].
  2:{ erewrite bind_panic by exact E3. rewrite extend_app, STOP.
      eexists. split; [reflexivity | exact D123]. }
  erewrite bind_ret by exact E3. rewrite extend_app.
  (* commit *)
  destruct (git_run run "commit" ["--all"; "--message=loftus"]
              (extend st1 ((n1 ++ n2) ++ n3))) as (n4 & E4 & D4).
  change (backend (extend st1 ((n1 ++ n2) ++ n3))) with g1 in E4, D4.
  change (gitResult run g1
            (gitPath g1 :: "commit" :: ["--all"; "--message=loftus"]))
    with (gitResult run g (commitArgv g)) in E4.
  change (during true n4 [commitArgv g] []) in D4.
  erewrite bind_ret by exact E4. rewrite extend_app.
  pose proof (during_app _ _ _ _ _ _ _ D123 D4) as D1234.
  cbn [app] in D1234.
  destruct (gitResult run g (commitArgv g)) as [e4|] eqn:R4;
    cbn [isNone negb]; cbv beta iota.
  { rewrite FINLOG. eexists.
    split; [cbn [pathResult]; now rewrite R4 | exact D1234]. }
  (* push *)
  destruct (push_run (extend st1 (((n1 ++ n2) ++ n3) ++ n4)))
    as (n5 & E5 & D5).
  change (backend (extend st1 (((n1 ++ n2) ++ n3) ++ n4))) with g1 in E5, D5.
  change (gitResult run g1 (pushArgv g1))
    with (gitResult run g (pushArgv g)) in E5, D5.
  change (pushArgv g1) with (pushArgv g) in D5.
  change (pushHook g1) with (pushHook g) in D5.
  change (isSyncActive g1) with true in D5.
  erewrite bind_ret by exact E5. rewrite extend_app.
  pose proof (during_app _ _ _ _ _ _ _ D1234 D5) as D12345.
  cbn [app] in D12345.
  destruct (gitResult run g (pushArgv g)) as [e5|] eqn:R5;
    cbn [isNone negb]; cbv beta iota.
  { rewrite FIN. eexists.
    split; [cbn [pathResult]; now rewrite R5 | exact D12345]. }
  rewrite FINLOG. eexists. split; [reflexivity | exact D12345].
Qed.

End SyncFacts.

(** ** C1, C7, C8, C9: the pipeline *)

Section Pipeline.

Context {Hook : Type}.
Variable run : Oracle.

Lemma succeeds_gitResult (g : GitBackend Hook) argv :
  succeeds run g argv -> gitResult run g argv = None.
Proof. unfold succeeds, gitResult. now intros ->. Qed.

Lemma exitsWith_gitResult (g : GitBackend Hook) argv e :
  exitsWith run g argv e ->
  gitResult run g argv = Some (gitErrorOf run g argv e).
Proof. unfold exitsWith, gitResult. now intros ->. Qed.



Lemma pathOf_commit (g : GitBackend Hook) e :
  reachesCommit run g -> exitsWith run g (commitArgv g) e ->
  pathOf run g = CommitFailed.
Proof.
  intros (F & RD & Mg & A & RS) C. unfold pathOf.
  rewrite (succeeds_gitResult _ _ F), (succeeds_gitResult _ _ Mg),
    (succeeds_gitResult _ _ A), (exitsWith_gitResult _ _ _ C).
  unfold readable in RD, RS. now rewrite RD, RS.
Qed.

Lemma pathOf_push (g : GitBackend Hook) e :
  reachesPush run g -> exitsWith run g (pushArgv g) e ->
  pathOf run g = PushFailed.
Proof.
  intros ((F & RD & Mg & A & RS) & C) P. unfold pathOf.
  rewrite (succeeds_gitResult _ _ F), (succeeds_gitResult _ _ Mg),
    (succeeds_gitResult _ _ A), (succeeds_gitResult _ _ C),
    (exitsWith_gitResult _ _ _ P).
  unfold readable in RD, RS. now rewrite RD, RS.
Qed.

Lemma pathOf_completed (g : GitBackend Hook) :
  reachesPush run g -> succeeds run g (pushArgv g) ->
  pathOf run g = Completed.
Proof.
  intros ((F & RD & Mg & A & RS) & C) P. unfold pathOf.
  rewrite (succeeds_gitResult _ _ F), (succeeds_gitResult _ _ Mg),
    (succeeds_gitResult _ _ A), (succeeds_gitResult _ _ C),
    (succeeds_gitResult _ _ P).
  unfold readable in RD, RS. now rewrite RD, RS.
Qed.

(** The command line of the commit is the command line of no other
    command of the pipeline. *)
Lemma commitLine_other (g : GitBackend Hook) argv :
  In argv [fetchArgv g; mergeArgv g; addArgv g; pushArgv g] ->
  String.eqb (Join argv " ") (commitLine g) = false.
Proof.
  intros H. apply String.eqb_neq. unfold commitLine.
  destruct H as [<- | [<- | [<- | [<- | []]]]];
    cbn [Join fetchArgv mergeArgv addArgv pushArgv];
    intros E; apply append_inj_l in E; discriminate E.
Qed.

Lemma outcome_failure (g : GitBackend Hook) argv e :
  In argv [fetchArgv g; mergeArgv g; addArgv g; pushArgv g] ->
  outcome g (Some (gitErrorOf run g argv e))
  = Failure (Join argv " ") (out (answer run g argv)) (exitStatus e).
Proof.
  intros H. unfold outcome. cbn [cmd status output gitErrorOf].
  now rewrite (commitLine_other _ _ H), andb_false_r.
Qed.

Lemma outcome_commit (g : GitBackend Hook) e :
  outcome g (Some (gitErrorOf run g (commitArgv g) e))
  = if exitStatus e =? 1 then NoOpCommit
    else Failure (Join (commitArgv g) " ")
           (out (answer run g (commitArgv g))) (exitStatus e).
Proof.
  unfold outcome. cbn [cmd status output gitErrorOf].
  change (Join (commitArgv g) " ") with (commitLine g).
  now rewrite String.eqb_refl, andb_true_r.
Qed.

(** C1. When [Sync] gets to the commit and the commit exits with an
    error, [Sync] returns that error and has run the six commands up to
    the commit: no push, and no goroutine for the push hook. With exit
    status 1 the returned error is the no-op outcome, not a failure, and
    the caller at startup does not warn about it; with any other status
    it is a failure that carries the command line, the output and the
    status, and the caller at startup warns. *)
Theorem commit_sentinel_is_noop (g : GitBackend Hook)
    (tr : list (Entry Hook)) (e : ExitError) :
  reachesCommit run g ->
  exitsWith run g (commitArgv g) e ->
  exists new st',
    Sync run {| backend := g; trace := tr |}
    = (Ret (Some (gitErrorOf run g (commitArgv g) e)), st')
    /\ trace st' = tr ++ new
    /\ execs new = firstn 6 (syncCommands g)
    /\ ~ In (pushArgv g) (execs new)
    /\ spawns new = []
    /\ (exitStatus e = 1 ->
        outcome g (Some (gitErrorOf run g (commitArgv g) e)) = NoOpCommit
        /\ warnsAtStartup (Some (gitErrorOf run g (commitArgv g) e)) = false)
    /\ (exitStatus e <> 1 ->
        outcome g (Some (gitErrorOf run g (commitArgv g) e))
        = Failure (Join (commitArgv g) " ")
            (out (answer run g (commitArgv g))) (exitStatus e)
        /\ warnsAtStartup (Some (gitErrorOf run g (commitArgv g) e)) = true).
Proof.
  intros RC C.
  destruct (Sync_run run g tr) as (mid & E & (F & X & S)).
  rewrite (pathOf_commit g e RC C) in E, X, S.
  cbn [pathResult pathPanics pathEnd pathLength pathSpawns] in E, X, S.
  rewrite (exitsWith_gitResult _ _ _ C) in E.
  eexists. eexists. split; [exact E|]. cbn [trace].
  split; [reflexivity|].
  assert (X' : execs ({| active := isSyncActive g;
                         effect := Log "* Sync start" |}
                      :: mid ++ [{| active := false;
                                    effect := Log "* Sync end" |}])
               = firstn 6 (syncCommands g)).
  { change (execs (mid ++ [{| active := false;
                              effect := Log "* Sync end" |}])
            = firstn 6 (syncCommands g)).
    now rewrite execs_app, X, app_nil_r. }
  split; [exact X'|]. split.
  { rewrite X'. cbn. intros [H|[H|[H|[H|[H|[H|[]]]]]]]; discriminate H. }
  split.
  { change (spawns (mid ++ [{| active := false;
                               effect := Log "* Sync end" |}]) = []).
    now rewrite spawns_app, S. }
  rewrite outcome_commit. unfold warnsAtStartup. cbn [status gitErrorOf].
  split.
  - intros ->. now split.
  - intros NE. apply Z.eqb_neq in NE. now rewrite NE.
Qed.

(** X11. A call of [Sync] that no other call overlaps, whatever the
    commands answer (each succeeds or exits with a status): the line that
    announces the start is logged with the flag as the caller left it;
    then [isSyncActive] is raised, and it is [true] at every effect of
    the call (every command run, at least the fetch, every line logged,
    every message shown, the start of the push hook), up to the exit; on
    every return ([nil] or an error, from whichever step) the flag is
    [false] again, the backend being otherwise unchanged. The closing
    line "* Sync end", where there is one, is logged after the flag is
    cleared. A panic while the output of a query is read ends the
    process with the flag still set. *)
Theorem lone_Sync_raises_and_clears_flag (g : GitBackend Hook)
    (tr : list (Entry Hook)) :
  exists r st' mid fin n,
    Sync run {| backend := g; trace := tr |} = (r, st')
    /\ trace st'
       = tr ++ {| active := isSyncActive g; effect := Log "* Sync start" |}
               :: mid ++ fin
    /\ Forall (fun en => active en = true) mid
    /\ (1 <= n)%nat
    /\ execs mid = firstn n (syncCommands g)
    /\ (exists d,
          In {| active := true; effect := Exec d (fetchArgv g) |} mid)
    /\ match r with
       | Ret _ =>
           backend st' = set_isSyncActive false g
           /\ isSyncActive (backend st') = false
           /\ (fin = []
               \/ fin = [{| active := false; effect := Log "* Sync end" |}])
       | Panic =>
           backend st' = set_isSyncActive true g /\ fin = []
       end.
Proof.
  destruct (Sync_run run g tr) as (mid & E & (F & X & S)).
  exists (pathResult run g (pathOf run g)).
  eexists. exists mid, (pathEnd (pathOf run g)), (pathLength (pathOf run g)).
  split; [exact E|]. cbn [trace backend].
  split; [reflexivity|]. split; [exact F|].
  split; [destruct (pathOf run g); cbn; lia|]. split; [exact X|].
  split.
  { destruct (execs_head mid (fetchArgv g)
                (firstn (pathLength (pathOf run g) - 1)
                   (tl (syncCommands g)))) as (d & b & IN).
    - rewrite X. destruct (pathOf run g); reflexivity.
    - exists d. rewrite Forall_forall in F.
      specialize (F _ IN). cbn in F. now subst b. }
  destruct (pathOf run g); cbn [pathResult pathPanics pathEnd];
    repeat split; auto.
Qed.


(** C7. Not every call of [Sync] runs the five commands and returns an
    outcome. When the fetch, the merge and the add succeed and the
    output of the diff query is read, but the output of
    [git status --porcelain] has a line that the loop of [status] cannot
    read (a line that starts with a space, as " M sub" for a submodule
    with changes of its own, or a line with no space at all), [Sync]
    panics on the index in [status], whatever the commit and the push
    would answer: it has run five commands, the fetch, the diff, the
    merge, the add and the status; the commit and the push are never
    run, no goroutine is started, no value is returned, and
    [isSyncActive] is left set. *)
Theorem Sync_panics_on_unreadable_status (g : GitBackend Hook)
    (tr : list (Entry Hook)) :
  succeeds run g (fetchArgv g) ->
  readable run g (diffArgv g) ->
  succeeds run g (mergeArgv g) ->
  succeeds run g (addArgv g) ->
  wellFormedStatus (out (answer run g (statusArgv g))) = false ->
  exists st' new,
    Sync run {| backend := g; trace := tr |} = (Panic, st')
    /\ trace st' = tr ++ new
    /\ execs new
       = [fetchArgv g; diffArgv g; mergeArgv g; addArgv g; statusArgv g]
    /\ ~ In (commitArgv g) (execs new)
    /\ ~ In (pushArgv g) (execs new)
    /\ spawns new = []
    /\ isSyncActive (backend st') = true.
Proof.
  intros F RD Mg A RS.
  destruct (Sync_run run g tr) as (mid & E & (_ & X & S)).
  assert (P : pathOf run g = StatusPanic).
  { unfold pathOf.
    rewrite (succeeds_gitResult _ _ F), (succeeds_gitResult _ _ Mg),
      (succeeds_gitResult _ _ A).
    unfold readable in RD. now rewrite RD, RS. }
  rewrite P in E, X, S.
  cbn [pathResult pathPanics pathEnd pathLength pathSpawns] in E, X, S.
  eexists. eexists. split; [exact E|]. cbn [trace backend].
  split; [reflexivity|].
  assert (X' : execs ({| active := isSyncActive g;
                         effect := Log "* Sync start" |} :: mid ++ [])
               = [fetchArgv g; diffArgv g; mergeArgv g; addArgv g;
                  statusArgv g]).
  { change (execs (mid ++ []) = firstn 5 (syncCommands g)).
    now rewrite app_nil_r, X. }
  split; [exact X'|]. rewrite X'. split.
  { cbn. intros [H|[H|[H|[H|[H|[]]]]]]; discriminate H. }
  split.
  { cbn. intros [H|[H|[H|[H|[H|[]]]]]]; discriminate H. }
  split; [|reflexivity].
  change (spawns (mid ++ []) = []). now rewrite app_nil_r, S.
Qed.

(** C8. When the fetch exits with an error, or the merge does after a
    fetch that succeeded, [Sync] stops there: it returns the error of
    that command, a failure with its command line, output and exit
    status; the commands run are the fetch alone, or the fetch, the
    diff query and the merge; add, commit and push are not run, no
    goroutine is started, and [isSyncActive] is cleared. *)
Theorem fetch_or_merge_failure_aborts (g : GitBackend Hook)
    (tr : list (Entry Hook)) (argv : list string) (e : ExitError) :
  pullFailsAt run g argv e ->
  exists new st',
    Sync run {| backend := g; trace := tr |}
    = (Ret (Some (gitErrorOf run g argv e)), st')
    /\ trace st' = tr ++ new
    /\ outcome g (Some (gitErrorOf run g argv e))
       = Failure (Join argv " ") (out (answer run g argv)) (exitStatus e)
    /\ (execs new = [fetchArgv g]
        \/ execs new = [fetchArgv g; diffArgv g; mergeArgv g])
    /\ last (execs new) [] = argv
    /\ ~ In (addArgv g) (execs new)
    /\ ~ In (commitArgv g) (execs new)
    /\ ~ In (pushArgv g) (execs new)
    /\ spawns new = []
    /\ isSyncActive (backend st') = false.
Proof.
  intros H.
  destruct (Sync_run run g tr) as (mid & E & (F & X & S)).
  assert (P : (pathOf run g = FetchFailed /\ argv = fetchArgv g
               \/ pathOf run g = MergeFailed /\ argv = mergeArgv g)
              /\ gitResult run g argv = Some (gitErrorOf run g argv e)).
  { destruct H as [(-> & XF) | (-> & SF & RD & XM)]; unfold pathOf.
    - rewrite (exitsWith_gitResult _ _ _ XF). auto.
    - rewrite (succeeds_gitResult _ _ SF), (exitsWith_gitResult _ _ _ XM).
      unfold readable in RD. rewrite RD. auto. }
  destruct P as (P & R).
  assert (IN : In argv [fetchArgv g; mergeArgv g; addArgv g; pushArgv g]).
  { destruct P as [(_ & ->) | (_ & ->)]; cbn; auto. }
  assert (X' : execs ({| active := isSyncActive g;
                         effect := Log "* Sync start" |}
                      :: mid ++ pathEnd (pathOf run g))
               = firstn (pathLength (pathOf run g)) (syncCommands g)).
  { change (execs (mid ++ pathEnd (pathOf run g))
            = firstn (pathLength (pathOf run g)) (syncCommands g)).
    rewrite execs_app, X.
    destruct (pathOf run g); cbn [pathEnd]; apply app_nil_r. }
  assert (S' : spawns ({| active := isSyncActive g;
                          effect := Log "* Sync start" |}
                       :: mid ++ pathEnd (pathOf run g)) = []).
  { change (spawns (mid ++ pathEnd (pathOf run g)) = []).
    rewrite spawns_app, S.
    destruct P as [(-> & _) | (-> & _)]; reflexivity. }
  destruct P as [(P & ->) | (P & ->)];
    rewrite P in E, X', S';
    cbn [pathResult pathPanics pathEnd pathLength] in E, X', S';
    rewrite R in E;
    (eexists; eexists; split; [exact E|]); cbn [trace backend];
    (split; [reflexivity|]); (split; [now apply outcome_failure|]);
    rewrite X', S'; cbn [firstn syncCommands];
    (split; [auto|]); (split; [reflexivity|]);
    repeat split; cbn;
    try (intros K; repeat destruct K as [K | K]; (discriminate K || exact K)).
Qed.

(** C9. When [Sync] gets to the push. If the push exits with an error,
    [Sync] returns it, a failure with the command line, output and exit
    status of the push, and starts no goroutine: the hook does not run.
    If the push succeeds, [Sync] returns [nil] and, with a hook
    registered, starts one goroutine for it, once, after the push; with
    none, it starts nothing. The hook is started, not called: [Sync]
    returns the same value, and has run the same commands, whichever
    hook is registered, so nothing that happens inside the hook reaches
    the caller of [Sync]. *)
Theorem push_step_and_hook (g : GitBackend Hook) (tr : list (Entry Hook)) :
  reachesPush run g ->
  exists r st' new,
    Sync run {| backend := g; trace := tr |} = (Ret r, st')
    /\ trace st' = tr ++ new
    /\ execs new = syncCommands g
    /\ (forall e, exitsWith run g (pushArgv g) e ->
          r = Some (gitErrorOf run g (pushArgv g) e)
          /\ outcome g r
             = Failure (Join (pushArgv g) " ")
                 (out (answer run g (pushArgv g))) (exitStatus e)
          /\ spawns new = [])
    /\ (succeeds run g (pushArgv g) ->
          r = None
          /\ spawns new = match pushHook g with
                          | Some h => [GoPushHook h]
                          | None => []
                          end)
    /\ (forall h' : option Hook,
          exists st'',
            Sync run {| backend := set_pushHook h' g; trace := tr |}
            = (Ret r, st'')
            /\ execs (trace st'') = execs (trace st')).
Proof.
  intros RP.
  assert (HOOK : forall h', pathOf run (set_pushHook h' g) = pathOf run g)
    by reflexivity.
  assert (TR : forall (g' : GitBackend Hook)
                      (tr' mid : list (Entry Hook)) (p : Path),
             execs mid = firstn (pathLength p) (syncCommands g) ->
             execs (tr' ++ {| active := isSyncActive g';
                              effect := Log "* Sync start" |}
                        :: mid ++ pathEnd p)
             = execs tr' ++ firstn (pathLength p) (syncCommands g)).
  { intros g' tr' mid p X. rewrite execs_app. f_equal.
    change (execs (mid ++ pathEnd p)
            = firstn (pathLength p) (syncCommands g)).
    rewrite execs_app, X. destruct p; apply app_nil_r. }
  destruct (Sync_run run g tr) as (mid & E & (F & X & S)).
  destruct (err (answer run g (pushArgv g))) as [e|] eqn:PE.
  - (* the push fails *)
    pose proof (pathOf_push g e RP PE) as P.
    rewrite P in E, X, S. cbn [pathResult pathPanics pathEnd] in E, X, S.
    eexists. eexists. eexists. split; [exact E|]. cbn [trace].
    split; [reflexivity|]. split.
    { change (execs (mid ++ []) = syncCommands g).
      now rewrite app_nil_r, X. }
    split.
    { intros e' XE. unfold exitsWith in XE. rewrite PE in XE.
      injection XE as <-.
      rewrite (exitsWith_gitResult _ _ _ PE). split; [reflexivity|].
      split; [apply outcome_failure; cbn; now auto 6|].
      change (spawns (mid ++ []) = []). now rewrite app_nil_r, S. }
    split; [intros SP; unfold succeeds in SP; congruence|].
    intros h'.
    destruct (Sync_run run (set_pushHook h' g) tr) as (mid' & E' & (F' & X' & S')).
    rewrite HOOK, P in E', X'. cbn [pathResult pathPanics pathEnd] in E', X'.
    eexists. split; [exact E'|]. cbn [trace].
    change (syncCommands (set_pushHook h' g)) with (syncCommands g) in X'.
    now rewrite (TR _ tr mid' PushFailed X'), (TR _ tr mid PushFailed X).
  - (* the push succeeds *)
    pose proof (pathOf_completed g RP PE) as P.
    rewrite P in E, X, S. cbn [pathResult pathPanics pathEnd] in E, X, S.
    eexists. eexists. eexists. split; [exact E|]. cbn [trace].
    split; [reflexivity|]. split.
    { change (execs (mid ++ [{| active := false;
                                effect := Log "* Sync end" |}])
              = syncCommands g).
      now rewrite execs_app, X, app_nil_r. }
    split; [intros e' XE; unfold exitsWith in XE; congruence|].
    split.
    { intros _. split; [reflexivity|].
      change (spawns (mid ++ [{| active := false;
                                 effect := Log "* Sync end" |}])
              = match pushHook g with
                | Some h => [GoPushHook h]
                | None => []
                end).
      rewrite spawns_app, S, app_nil_r. reflexivity. }
    intros h'.
    destruct (Sync_run run (set_pushHook h' g) tr) as (mid' & E' & (F' & X' & S')).
    rewrite HOOK, P in E', X'. cbn [pathResult pathPanics pathEnd] in E', X'.
    eexists. split; [exact E'|]. cbn [trace].
    change (syncCommands (set_pushHook h' g)) with (syncCommands g) in X'.
    now rewrite (TR _ tr mid' Completed X'), (TR _ tr mid Completed X).
Qed.

End Pipeline.

(** The theorems of the pipeline at work on small worlds. *)

Lemma commit_sentinel_is_noop_witness :
  reachesCommit (Examples.failing "commit" 1) Examples.repo
  /\ exitsWith (Examples.failing "commit" 1) Examples.repo
       (commitArgv Examples.repo) (Examples.exit 1)
  /\ exists (new : list (Entry nat)) st',
       Sync (Examples.failing "commit" 1) Examples.fresh
       = (Ret (Some (gitErrorOf (Examples.failing "commit" 1) Examples.repo
                       (commitArgv Examples.repo) (Examples.exit 1))), st')
       /\ execs new = firstn 6 (syncCommands Examples.repo)
       /\ spawns new = []
       /\ outcome Examples.repo
            (Some (gitErrorOf (Examples.failing "commit" 1) Examples.repo
                     (commitArgv Examples.repo) (Examples.exit 1)))
          = NoOpCommit.
Proof.
  assert (RC : reachesCommit (Examples.failing "commit" 1) Examples.repo)
    by (repeat split).
  assert (C : exitsWith (Examples.failing "commit" 1) Examples.repo
                (commitArgv Examples.repo) (Examples.exit 1))
    by reflexivity.
  split; [exact RC|]. split; [exact C|].
  destruct (commit_sentinel_is_noop (Examples.failing "commit" 1)
              Examples.repo [] (Examples.exit 1) RC C)
    as (new & st' & E & T & X & NP & S & ONE & OTHER).
  exists new, st'. split; [exact E|]. split; [exact X|]. split; [exact S|].
  apply ONE. reflexivity.
Defined.

Lemma Sync_panics_on_unreadable_status_witness :
  Forall (succeeds MoreExamples.dirty Examples.repo) (pipeline Examples.repo)
  /\ readable MoreExamples.dirty Examples.repo (diffArgv Examples.repo)
  /\ fieldsOf " M sub" = [""; "M"; "sub"]
  /\ exists st' (new : list (Entry nat)),
       Sync MoreExamples.dirty Examples.fresh = (Panic, st')
       /\ trace st' = [] ++ new
       /\ execs new = firstn 5 (syncCommands Examples.repo)
       /\ ~ In (commitArgv Examples.repo) (execs new)
       /\ ~ In (pushArgv Examples.repo) (execs new).
Proof.
  split; [repeat constructor|]. split; [reflexivity|].
  split; [reflexivity|].
  destruct (Sync_panics_on_unreadable_status MoreExamples.dirty
              Examples.repo [] eq_refl eq_refl eq_refl eq_refl eq_refl)
    as (st' & new & E & T & X & NC & NP & S & A).
  exists st', new. split; [exact E|]. split; [exact T|].
  split; [exact X|]. split; [exact NC | exact NP].
Defined.

Lemma fetch_or_merge_failure_aborts_witness :
  pullFailsAt (Examples.failing "merge" 1) Examples.repo
    (mergeArgv Examples.repo) (Examples.exit 1)
  /\ exists (new : list (Entry nat)) st',
       Sync (Examples.failing "merge" 1) Examples.fresh
       = (Ret (Some (gitErrorOf (Examples.failing "merge" 1) Examples.repo
                       (mergeArgv Examples.repo) (Examples.exit 1))), st')
       /\ outcome Examples.repo
            (Some (gitErrorOf (Examples.failing "merge" 1) Examples.repo
                     (mergeArgv Examples.repo) (Examples.exit 1)))
          = Failure "/usr/bin/git merge origin/master" "fatal" 1
       /\ ~ In (pushArgv Examples.repo) (execs new).
Proof.
  assert (PF : pullFailsAt (Examples.failing "merge" 1) Examples.repo
                 (mergeArgv Examples.repo) (Examples.exit 1))
    by (right; repeat split).
  split; [exact PF|].
  destruct (fetch_or_merge_failure_aborts (Examples.failing "merge" 1)
              Examples.repo [] (mergeArgv Examples.repo) (Examples.exit 1) PF)
    as (new & st' & E & T & O & X & L & NA & NC & NP & S & A).
  exists new, st'. split; [exact E|]. split; [exact O|]. exact NP.
Defined.

Lemma push_step_and_hook_witness :
  reachesPush Examples.allGood Examples.repo
  /\ exists st' (new : list (Entry nat)),
       Sync Examples.allGood Examples.fresh = (Ret None, st')
       /\ trace st' = [] ++ new
       /\ execs new = syncCommands Examples.repo
       /\ spawns new = [GoPushHook 7%nat].
Proof.
  assert (RP : reachesPush Examples.allGood Examples.repo)
    by (repeat split).
  split; [exact RP|].
  destruct (push_step_and_hook Examples.allGood Examples.repo [] RP)
    as (r & st' & new & E & T & X & BAD & GOOD & ANY).
  destruct (GOOD eq_refl) as (R & S). subst r.
  exists st', new. split; [exact E|]. split; [exact T|]. split; [exact X|].
  exact S.
Defined.

(** ** C6: at most one debounce task *)

Module DebounceFacts.
Import Debounce.

Section Interleaving.

Context {Hook : Type}.

Lemma count_app (f : PC -> bool) (l1 l2 : list PC) :
  count f (l1 ++ l2) = (count f l1 + count f l2)%nat.
Proof. unfold count. now rewrite filter_app, length_app. Qed.

Lemma count_setNth (f : PC -> bool) (l : list PC) :
  forall n x pc,
    nth_error l n = Some pc ->
    (count f (setNth n x l) + Nat.b2n (f pc)
     = count f l + Nat.b2n (f x))%nat.
Proof.
  unfold count.
  induction l as [|y l IH]; intros [|n] x pc H; try discriminate.
  - injection H as ->. cbn [setNth filter].
    destruct (f x), (f pc); cbn [List.length Nat.b2n]; lia.
  - cbn [nth_error] in H. specialize (IH n x pc H).
    cbn [setNth filter]. destruct (f y); cbn [List.length]; lia.
Qed.

Lemma count_le (f h : PC -> bool) (l : list PC) :
  (forall pc, f pc = true -> h pc = true) ->
  (count f l <= count h l)%nat.
Proof.
  intros FH. unfold count. induction l as [|y l IH]; [reflexivity|].
  cbn [filter]. destruct (f y) eqn:E.
  - rewrite (FH _ E). cbn [List.length]. lia.
  - destruct (h y); cbn [List.length]; lia.
Qed.

Lemma count_nth (f : PC -> bool) (l : list PC) :
  forall n pc,
    nth_error l n = Some pc -> (Nat.b2n (f pc) <= count f l)%nat.
Proof.
  unfold count.
  induction l as [|y l IH]; intros [|n] pc H; try discriminate.
  - injection H as ->. cbn [filter].
    destruct (f pc); cbn [List.length Nat.b2n]; lia.
  - cbn [nth_error] in H. specialize (IH n pc H).
    cbn [filter]. destruct (f y); cbn [List.length]; lia.
Qed.

Lemma count_In (f : PC -> bool) (l : list PC) pc :
  In pc l -> f pc = true -> (1 <= count f l)%nat.
Proof.
  intros IN F. apply In_nth_error in IN. destruct IN as [n IN].
  pose proof (count_nth f l n pc IN) as H. now rewrite F in H.
Qed.

(** A call of [Changed] leaves [lastEvent] aside, changes no field, and
    starts at most one goroutine, at the head of [syncLater]. *)
Lemma callChanged_spec now filename (g : GitBackend Hook) :
  (callChanged now filename g = (g, [])
   \/ callChanged now filename g = (set_lastEvent now g, [pcLock]))
  /\ (isGit filename = false -> isSyncActive g = false ->
      callChanged now filename g = (set_lastEvent now g, [pcLock])).
Proof.
  unfold callChanged, Changed, bind, get.
  cbn [backend trace fst snd].
  destruct (isGit filename); cbn [orb].
  - split; [now left | discriminate].
  - destruct (isSyncActive g) eqn:A; cbn.
    + split; [now left | discriminate].
    + split; [now right | reflexivity].
Qed.

Lemma Inv_initial (g : GitBackend Hook) :
  syncLock g = false -> isSyncPending g = false -> Inv (initial g).
Proof.
  intros L P. unfold Inv, initial. cbn [shared threads].
  rewrite L, P. repeat split; discriminate.
Qed.

Lemma Inv_act (s : System (Hook := Hook)) (a : Action) :
  Inv s -> Inv (act s a).
Proof.
  intros (IL & IT & IS). destruct a as [now filename | now tid | entering].
  - (* Changed *)
    unfold act.
    destruct (callChanged_spec now filename (shared s)) as [[E | E] _];
      rewrite E; unfold Inv; cbn [shared threads].
    + rewrite app_nil_r. now repeat split.
    + rewrite !count_app. cbn. rewrite !Nat.add_0_r. now repeat split.
  - (* a goroutine moves *)
    unfold act.
    destruct (nth_error (threads s) tid) as [pc|] eqn:N; [|now repeat split].
    destruct (stepSyncLater now (shared s) pc) as [[g pc']|] eqn:ST;
      [|now repeat split].
    pose proof (count_setNth holdsLock _ _ pc' _ N) as CH.
    pose proof (count_setNth isTask _ _ pc' _ N) as CT.
    pose proof (count_setNth atSet _ _ pc' _ N) as CS.
    pose proof (count_nth holdsLock _ _ _ N) as NH.
    pose proof (count_nth isTask _ _ _ N) as NT.
    pose proof (count_nth atSet _ _ _ N) as NS.
    pose proof (count_le atSet holdsLock (threads s)) as LE.
    assert (LE' : (count atSet (threads s) <= count holdsLock (threads s))%nat)
      by (apply LE; now intros []).
    clear LE. unfold Inv. cbn [shared threads].
    destruct (syncLock (shared s)) eqn:L, (isSyncPending (shared s)) eqn:P;
      destruct pc; cbn [stepSyncLater] in ST; rewrite ?L, ?P in ST;
      try discriminate ST;
      try (destruct (now - lastEvent (shared s) <? SYNC_IDLE_SECS * Second));
      injection ST as <- <-; cbn in *; rewrite ?L, ?P; cbn;
      try (specialize (IS eq_refl));
      repeat split; try discriminate; try lia.
  - (* Sync of the event loop *)
    unfold act, Inv. cbn [shared threads]. now repeat split.
Qed.

Lemma Inv_runActions (acts : list Action) :
  forall s : System (Hook := Hook), Inv s -> Inv (runActions s acts).
Proof.
  unfold runActions.
  induction acts as [|a acts IH]; intros s I; [exact I|].
  cbn [fold_left]. apply IH. now apply Inv_act.
Qed.

(** C6. Under every interleaving of calls of [Changed], of statements of
    the goroutines of [syncLater] and of calls of [Sync] by the event
    loop, from a backend with the mutex free and the flag clear: there is
    at most one debounce task, and there is one exactly when
    [isSyncPending] is set; the flag is tested and set by the goroutine
    that holds the mutex, and one goroutine at most holds it. While the
    flag is set, a call of [Changed] changes [lastEvent] at most, and
    starts at most one goroutine, at the head of [syncLater], which is
    not a task; and a goroutine that tests the flag then goes on to
    unlock and return. *)
Theorem at_most_one_debounce_task (g : GitBackend Hook)
    (acts : list Action) :
  syncLock g = false -> isSyncPending g = false ->
  let s := runActions (initial g) acts in
  (tasks s <= 1)%nat
  /\ tasks s = Nat.b2n (isSyncPending (shared s))
  /\ count holdsLock (threads s) = Nat.b2n (syncLock (shared s))
  /\ (forall pc, In pc (threads s) -> pc = pcTest \/ pc = pcSet ->
        syncLock (shared s) = true)
  /\ (isSyncPending (shared s) = true ->
      forall now filename,
        let s' := act s (ActChanged now filename) in
        tasks s' = tasks s
        /\ isSyncPending (shared s') = true
        /\ (shared s' = shared s \/ shared s' = set_lastEvent now (shared s))
        /\ (threads s' = threads s \/ threads s' = threads s ++ [pcLock])
        /\ forall now' tid,
             nth_error (threads s') tid = Some pcTest ->
             act s' (ActStep now' tid)
             = {| shared := shared s';
                  threads := setNth tid pcUnlockReturn (threads s');
                  syncStarts := syncStarts s' |}).
Proof.
  intros L P s.
  assert (I : Inv s) by (apply Inv_runActions, Inv_initial; assumption).
  destruct I as (IL & IT & IS).
  split; [unfold tasks; fold (count isTask (threads s)); rewrite IT;
          destruct (isSyncPending (shared s)); cbn; lia|].
  split; [exact IT|]. split; [exact IL|]. split.
  - intros pc IN PC.
    assert (H : holdsLock pc = true) by (destruct PC as [-> | ->]; reflexivity).
    pose proof (count_In holdsLock _ _ IN H) as C. rewrite IL in C.
    destruct (syncLock (shared s)); [reflexivity | cbn in C; lia].
  - intros PEND now filename s'.
    assert (A : s' = {| shared := shared s; threads := threads s;
                        syncStarts := syncStarts s |}
                \/ s' = {| shared := set_lastEvent now (shared s);
                           threads := threads s ++ [pcLock];
                           syncStarts := syncStarts s |}).
    { subst s'. unfold act.
      destruct (callChanged_spec now filename (shared s)) as [[E | E] _];
        rewrite E; [left | right]; [now rewrite app_nil_r | reflexivity]. }
    clearbody s'. destruct A as [-> | ->]; unfold tasks;
      cbn [shared threads syncStarts].
    + split; [reflexivity|]. split; [exact PEND|].
      split; [now left|]. split; [now left|].
      intros now' tid N. unfold act. cbn [shared threads syncStarts].
      rewrite N. cbn [stepSyncLater]. now rewrite PEND.
    + split; [fold (count isTask (threads s ++ [pcLock]));
              fold (count isTask (threads s));
              rewrite count_app; cbn; lia|].
      split; [exact PEND|].
      split; [now right|]. split; [now right|].
      intros now' tid N. unfold act. cbn [shared threads syncStarts].
      rewrite N. cbn [stepSyncLater isSyncPending set_lastEvent].
      now rewrite PEND.
Qed.

End Interleaving.

Lemma at_most_one_debounce_task_witness :
  let s := runActions (initial (NewGitBackend (Hook := nat) "/repo" "/usr/bin/git"))
             Examples.twoEvents in
  threads s = [pcLoop; pcDone]
  /\ isSyncPending (shared s) = true
  /\ (tasks s <= 1)%nat.
Proof.
  intros s. split; [reflexivity|]. split; [reflexivity|].
  exact (proj1 (at_most_one_debounce_task
                  (NewGitBackend (Hook := nat) "/repo" "/usr/bin/git")
                  Examples.twoEvents eq_refl eq_refl)).
Defined.

End DebounceFacts.

(** ** The debouncer on a clock: one run for a burst *)

Module TimedFacts.
Import Debounce.

Section Clock.

Context {Hook : Type}.
Variables (gp rd : string) (hk : option Hook).

Local Notation "'waiting'" := (waitingAt gp rd hk).
Local Notation "'finished'" := (finishedAt gp rd hk).
Local Notation "'at_rest'" := (backendAt gp rd hk).

Lemma drive_tick fuel (s s' : Timed (Hook := Hook)) ev ev' :
  tick s ev = Some (s', ev') -> drive (S fuel) s ev = drive fuel s' ev'.
Proof. intros H. cbn [drive]. now rewrite H. Qed.

Lemma drive_done fuel (s : Timed (Hook := Hook)) ev :
  tick s ev = None -> drive fuel s ev = Some s.
Proof. intros H. destruct fuel; cbn [drive]; now rewrite H. Qed.

Lemma leads_refl (s : Timed (Hook := Hook)) ev : leads s ev s ev.
Proof. now exists 0%nat. Qed.

Lemma leads_tick (s s' : Timed (Hook := Hook)) ev ev' :
  tick s ev = Some (s', ev') -> leads s ev s' ev'.
Proof. intros H. exists 1%nat. intros fuel. now apply drive_tick. Qed.

Lemma leads_trans (s1 s2 s3 : Timed (Hook := Hook)) e1 e2 e3 :
  leads s1 e1 s2 e2 -> leads s2 e2 s3 e3 -> leads s1 e1 s3 e3.
Proof.
  intros [n H1] [m H2]. exists (n + m)%nat. intros fuel.
  now rewrite <- Nat.add_assoc, H1, H2.
Qed.

Lemma Second_pos : 0 < Second.
Proof. reflexivity. Qed.

Lemma runThread_S fuel now (g : GitBackend Hook) pc starts :
  runThread (S fuel) now g pc starts
  = match stepSyncLater now g pc with
    | None =>
        match pc with
        | pcDone => (g, None, starts)
        | _ => (g, Some (pc, now), starts)
        end
    | Some (g', pc') =>
        match pc, pc' with
        | pcLoop, pcLoop => (g', Some (pcLoop, now + Second), starts)
        | pcSync, _ => runThread fuel now g' pc' (starts ++ [now])
        | _, _ => runThread fuel now g' pc' starts
        end
    end.
Proof. reflexivity. Qed.

(** The task wakes up too early and sleeps again. *)
Lemma tick_sleep_again l w ev :
  notBefore w ev -> w - l < SYNC_IDLE_SECS * Second ->
  tick (waiting l w) ev = Some (waiting l (w + Second), ev).
Proof.
  intros NB EARLY. apply Z.ltb_lt in EARLY.
  unfold tick, waitingAt. cbn [live earliest].
  assert (R : runEarliest
                {| tshared := at_rest true l; live := [(pcLoop, w)];
                   tstarts := [] |} (pcLoop, w) []
              = waiting l (w + Second)).
  { unfold runEarliest. cbn [snd fst tshared tstarts].
    rewrite runThread_S. cbn [stepSyncLater lastEvent backendAt].
    rewrite EARLY. reflexivity. }
  destruct ev as [|[t f] ev]; [now rewrite R|].
  cbn [notBefore] in NB. apply Z.leb_le in NB. cbn [snd]. now rewrite NB, R.
Qed.

(** The task wakes up after the idle window and runs [Sync]. *)
Lemma tick_fire l w :
  SYNC_IDLE_SECS * Second <= w - l ->
  tick (waiting l w) [] = Some (finished l w, []).
Proof.
  intros LATE. apply Z.ltb_ge in LATE.
  unfold tick, waitingAt. cbn [live earliest].
  unfold runEarliest. cbn [snd fst tshared tstarts].
  rewrite runThread_S. cbn [stepSyncLater lastEvent backendAt].
  rewrite LATE. reflexivity.
Qed.

(** A file event comes while the task sleeps. *)
Lemma tick_deliver l w t f ev :
  t < w -> isGit f = false ->
  tick (waiting l w) ((t, f) :: ev)
  = Some ({| tshared := at_rest true t;
             live := [(pcLoop, w); (pcLock, t)]; tstarts := [] |}, ev).
Proof.
  intros TW G. apply Z.leb_gt in TW.
  unfold tick, waitingAt. cbn [live earliest snd]. rewrite TW.
  unfold deliver. cbn [tshared live tstarts].
  destruct (DebounceFacts.callChanged_spec t f (at_rest true l)) as [_ E].
  now rewrite (E G eq_refl).
Qed.

(** The goroutine of that event finds the flag set and returns. *)
Lemma tick_latecomer t w ev :
  t < w -> notBefore t ev ->
  tick {| tshared := at_rest true t;
          live := [(pcLoop, w); (pcLock, t)]; tstarts := [] |} ev
  = Some (waiting t w, ev).
Proof.
  intros TW NB. apply Z.leb_gt in TW.
  unfold tick. cbn [live earliest snd]. rewrite TW.
  assert (R : runEarliest
                {| tshared := at_rest true t;
                   live := [(pcLoop, w); (pcLock, t)]; tstarts := [] |}
                (pcLock, t) [(pcLoop, w)]
              = waiting t w) by reflexivity.
  destruct ev as [|[t' f'] ev]; [now rewrite R|].
  cbn [notBefore] in NB. apply Z.leb_le in NB. cbn [snd]. now rewrite NB, R.
Qed.

(** The first event of a burst, with the backend at rest. *)
Lemma tick_first l0 t f ev :
  isGit f = false ->
  tick (idle (at_rest false l0)) ((t, f) :: ev)
  = Some ({| tshared := at_rest false t;
             live := [(pcLock, t)]; tstarts := [] |}, ev).
Proof.
  intros G. unfold tick, idle. cbn [live earliest].
  unfold deliver. cbn [tshared live tstarts].
  destruct (DebounceFacts.callChanged_spec t f (at_rest false l0)) as [_ E].
  now rewrite (E G eq_refl).
Qed.

(** Its goroutine sets the flag and becomes the debounce task. *)
Lemma tick_becomes_task t ev :
  notBefore t ev ->
  tick {| tshared := at_rest false t; live := [(pcLock, t)];
          tstarts := [] |} ev
  = Some (waiting t (t + Second), ev).
Proof.
  intros NB. unfold tick. cbn [live earliest snd].
  assert (R : runEarliest
                {| tshared := at_rest false t; live := [(pcLock, t)];
                   tstarts := [] |} (pcLock, t) []
              = waiting t (t + Second)).
  { unfold runEarliest. cbn [snd fst tshared tstarts].
    do 4 (rewrite runThread_S;
          cbn [stepSyncLater syncLock isSyncPending backendAt set_syncLock
               set_isSyncPending]).
    rewrite runThread_S. cbn [stepSyncLater lastEvent set_syncLock].
    rewrite Z.sub_diag. reflexivity. }
  destruct ev as [|[t' f'] ev]; [now rewrite R|].
  cbn [notBefore] in NB. apply Z.leb_le in NB. now rewrite NB, R.
Qed.

Lemma tick_finished l w : tick (finished l w) [] = None.
Proof. reflexivity. Qed.

Lemma enough_sleeps (x : Z) : x <= Z.of_nat (Z.to_nat x) * Second.
Proof.
  pose proof Second_pos as SP.
  assert (H : Z.of_nat (Z.to_nat x) = Z.max 0 x) by lia.
  rewrite H. nia.
Qed.

(** The task sleeps through the time before the next event. *)
Lemma sleep_until_event (n : nat) :
  forall l w t f ev,
    t - l < SYNC_IDLE_SECS * Second ->
    t + 1 - w <= Z.of_nat n * Second ->
    l < w -> w < l + (SYNC_IDLE_SECS + 1) * Second -> l <= t ->
    exists w',
      leads (waiting l w) ((t, f) :: ev) (waiting l w') ((t, f) :: ev)
      /\ t < w' /\ w' < t + (SYNC_IDLE_SECS + 1) * Second.
Proof.
  pose proof Second_pos as SP. unfold SYNC_IDLE_SECS in *.
  induction n as [|n IH]; intros l w t f ev BURST MEAS LW WU LT.
  - exists w. split; [apply leads_refl|]. lia.
  - destruct (Z_lt_le_dec t w) as [TW | WT].
    + exists w. split; [apply leads_refl|]. lia.
    + destruct (IH l (w + Second) t f ev) as (w' & LEADS & B1 & B2);
        try lia.
      exists w'. split; [|lia].
      eapply leads_trans; [|exact LEADS].
      apply leads_tick, tick_sleep_again; [exact WT | unfold SYNC_IDLE_SECS; lia].
Qed.

(** With no event to come, the task sleeps until the idle window is
    over, then runs [Sync]. *)
Lemma sleep_until_idle (n : nat) :
  forall l w,
    l + SYNC_IDLE_SECS * Second - w <= Z.of_nat n * Second ->
    l < w -> w < l + (SYNC_IDLE_SECS + 1) * Second ->
    exists w',
      leads (waiting l w) [] (finished l w') []
      /\ l + SYNC_IDLE_SECS * Second <= w'
      /\ w' < l + (SYNC_IDLE_SECS + 1) * Second.
Proof.
  pose proof Second_pos as SP. unfold SYNC_IDLE_SECS in *.
  induction n as [|n IH]; intros l w MEAS LW WU.
  - exists w. split; [|lia].
    apply leads_tick, tick_fire. unfold SYNC_IDLE_SECS. lia.
  - destruct (Z_lt_le_dec (w - l) (5 * Second)) as [EARLY | LATE].
    + destruct (IH l (w + Second)) as (w' & LEADS & B1 & B2); try lia.
      exists w'. split; [|lia].
      eapply leads_trans; [|exact LEADS].
      apply leads_tick, tick_sleep_again; [exact I | exact EARLY].
    + exists w. split; [|lia].
      apply leads_tick, tick_fire. exact LATE.
Qed.

(** From a sleeping task, through the rest of a burst. *)
Lemma burst_leads_to_one_sync (ev : list (Z * string)) :
  forall l w,
    burstFrom l ev ->
    l < w -> w < l + (SYNC_IDLE_SECS + 1) * Second ->
    exists w',
      leads (waiting l w) ev (finished (lastFrom l ev) w') []
      /\ lastFrom l ev + SYNC_IDLE_SECS * Second <= w'
      /\ w' < lastFrom l ev + (SYNC_IDLE_SECS + 1) * Second.
Proof.
  pose proof Second_pos as SP.
  induction ev as [|[t f] ev IH]; intros l w B LW WU.
  - apply (sleep_until_idle (Z.to_nat (l + SYNC_IDLE_SECS * Second - w)));
      try assumption.
    apply enough_sleeps.
  - destruct B as (LT & NEAR & G & B).
    destruct (sleep_until_event (Z.to_nat (t + 1 - w)) l w t f ev)
      as (w1 & L1 & TW & WU1); try assumption;
      [apply enough_sleeps|].
    destruct (IH t w1 B TW WU1) as (w' & L2 & B1 & B2).
    exists w'.
    assert (LAST : lastFrom l ((t, f) :: ev) = lastFrom t ev).
    { unfold lastFrom. destruct ev as [|e ev]; [reflexivity|].
      cbn [last]. clear. revert e.
      induction ev as [|e' ev IHev]; intros e; [reflexivity|].
      cbn [last]. apply IHev. }
    rewrite LAST. split; [|now split].
    eapply leads_trans; [exact L1|].
    eapply leads_trans; [apply leads_tick, tick_deliver; assumption|].
    eapply leads_trans; [|exact L2].
    apply leads_tick, tick_latecomer; [exact TW|].
    destruct ev as [|[t' f'] ev]; [exact I | apply B].
Qed.

End Clock.

Lemma lastTime_cons t f (ev : list (Z * string)) :
  lastTime ((t, f) :: ev) = lastFrom t ev.
Proof.
  unfold lastTime, lastFrom. destruct ev as [|e ev]; [reflexivity|].
  cbn [last]. revert e.
  induction ev as [|e' ev IH]; intros e; [reflexivity|].
  cbn [last]. apply IH.
Qed.

(** X13. On one schedule, that of the clock of [tick]: every goroutine
    runs as soon as it is started or its sleep is over, statements take
    no time and [Sync] returns at once; and from a backend at rest (mutex
    free, flag clear, no [Sync] running, no goroutine alive). On that
    schedule, for every burst of one or more file events that are not
    filtered, each less than the idle window of 5 seconds after the one
    before, the daemon comes to rest after having entered [Sync] exactly
    once, at a time [w] that is at least the idle window after the last
    event of the burst (and less than one second more); every goroutine
    has returned and the flag is clear again. Enough fuel always gives
    this result. Other schedules give other counts. *)
Theorem burst_on_the_clock_triggers_one_sync {Hook : Type}
    (g : GitBackend Hook) (events : list (Z * string)) :
  syncLock g = false -> isSyncPending g = false -> isSyncActive g = false ->
  burst events ->
  exists n w,
    (forall fuel, (n <= fuel)%nat ->
       exists s,
         drive fuel (idle g) events = Some s
         /\ tstarts s = [w] /\ live s = []
         /\ isSyncPending (tshared s) = false)
    /\ lastTime events + SYNC_IDLE_SECS * Second <= w
    /\ w < lastTime events + (SYNC_IDLE_SECS + 1) * Second.
Proof.
  intros L P A B.
  destruct g as [gp rd lk pend act l0 hk]. cbn in L, P, A. subst lk pend act.
  change (idle _) with (idle (backendAt gp rd hk false l0)).
  destruct events as [|[t1 f1] rest]; [contradiction|].
  destruct B as (G & B).
  assert (NB : notBefore t1 rest)
    by (destruct rest as [|[t' f'] rest]; [exact I | apply B]).
  pose proof Second_pos as SP.
  destruct (burst_leads_to_one_sync gp rd hk rest t1 (t1 + Second) B)
    as (w & LEADS & LOW & UP);
    [lia | unfold SYNC_IDLE_SECS; lia |].
  assert (ALL : leads (idle (backendAt gp rd hk false l0)) ((t1, f1) :: rest)
                  (finishedAt gp rd hk (lastFrom t1 rest) w) []).
  { eapply leads_trans; [apply leads_tick, tick_first; exact G|].
    eapply leads_trans; [apply leads_tick, tick_becomes_task; exact NB|].
    exact LEADS. }
  destruct ALL as [n ALL]. exists n, w.
  rewrite lastTime_cons. split; [|now split].
  intros fuel LE. exists (finishedAt gp rd hk (lastFrom t1 rest) w).
  replace fuel with (n + (fuel - n))%nat by lia.
  rewrite ALL. split; [apply drive_done, tick_finished|]. now repeat split.
Qed.

Lemma burst_on_the_clock_triggers_one_sync_witness :
  burst Examples.threeEvents
  /\ option_map tstarts
       (drive 30 (idle (NewGitBackend (Hook := nat) "/repo" "/usr/bin/git"))
          Examples.threeEvents)
     = Some [14000000000]
  /\ exists n w,
       (forall fuel, (n <= fuel)%nat ->
          exists s,
            drive fuel (idle (NewGitBackend (Hook := nat) "/repo" "/usr/bin/git"))
              Examples.threeEvents = Some s
            /\ tstarts s = [w] /\ live s = []
            /\ isSyncPending (tshared s) = false)
       /\ 14000000000 <= w.
Proof.
  assert (B : burst Examples.threeEvents).
  { cbn. repeat split; try reflexivity; discriminate. }
  split; [exact B|]. split; [reflexivity|].
  destruct (burst_on_the_clock_triggers_one_sync
              (NewGitBackend (Hook := nat) "/repo" "/usr/bin/git")
              Examples.threeEvents eq_refl eq_refl eq_refl B)
    as (n & w & RUN & LOW & UP).
  exists n, w. split; [exact RUN | exact LOW].
Defined.

End TimedFacts.


(** ** The startup walk: which directories are watched *)

Module WalkCoverage.
Import Walk.

Section WithWatcher.

Variable addWatchErr : string -> option string.
Variable join : string -> string -> string.

Lemma grown_nil c : grown addWatchErr c [] = c.
Proof. destruct c. unfold grown. cbn. now rewrite !app_nil_r. Qed.

Lemma grown_app c p1 p2 :
  grown addWatchErr (grown addWatchErr c p1) p2
  = grown addWatchErr c (p1 ++ p2).
Proof.
  unfold grown. cbn [watched logged].
  now rewrite !filter_app, map_app, !app_assoc.
Qed.

Lemma addSingleWatch_on_dir path n e entries err c :
  addSingleWatch addWatchErr path (Some (Dir n e entries)) err c
  = (Ret None, grown addWatchErr c [path]).
Proof.
  unfold addSingleWatch, grown, watchable, Println, AddWatch.
  cbn [IsDir andb filter map watched logged].
  destruct (ShouldWatch path); cbn [andb].
  - destruct (addWatchErr path); cbn [isNone watched logged];
      now rewrite ?app_nil_r.
  - destruct c. cbn. now rewrite !app_nil_r.
Qed.

Lemma walk_grows (t : Tree) :
  forall path c,
    walk join (addSingleWatch addWatchErr) path t c
    = (Ret None, grown addWatchErr c (callbackDirs join path t)).
Proof.
  induction t as [n | n e entries IH] using WalkFacts.Tree_nested_ind;
    intros path c.
  - cbn [walk callbackDirs]. unfold addSingleWatch. cbn [IsDir andb].
    now rewrite grown_nil.
  - cbn [walk callbackDirs]. rewrite addSingleWatch_on_dir.
    destruct e as [msg|].
    + rewrite addSingleWatch_on_dir, grown_app. reflexivity.
    + match goal with
      | |- ?walkEntries entries _ = (_, grown _ _ (path :: ?go entries)) =>
          assert (ENT : forall c', walkEntries entries c'
                                   = (Ret None, grown addWatchErr c' (go entries)))
      end.
      { induction IH as [|t ts Ht _ IHts]; intros c'.
        - now rewrite grown_nil.
        - rewrite Ht, IHts, grown_app. reflexivity. }
      rewrite ENT, grown_app. reflexivity.
Qed.

End WithWatcher.

End WalkCoverage.

(** ** What [status] reads *)

Section StatusFacts.

Context {Hook : Type}.
Variable run : Oracle.

Lemma infos_app (a b : list (Entry Hook)) : infos (a ++ b) = infos a ++ infos b.
Proof. apply flat_map_app. Qed.

Lemma onlyLogs_app (a b : list (Entry Hook)) :
  onlyLogs a -> onlyLogs b -> onlyLogs (a ++ b).
Proof. intros A B. apply Forall_app. now split. Qed.

Lemma onlyLogs_infos (a : list (Entry Hook)) : onlyLogs a -> infos a = [].
Proof.
  induction 1 as [|en a H _ IH]; [reflexivity|].
  cbn [infos flat_map]. fold (infos a). rewrite IH.
  now destruct (effect en).
Qed.

Lemma onlyLogs_execs (a : list (Entry Hook)) : onlyLogs a -> execs a = [].
Proof.
  induction 1 as [|en a H _ IH]; [reflexivity|].
  cbn [execs flat_map]. fold (execs a). rewrite IH.
  now destruct (effect en).
Qed.

Lemma onlyLogs_spawns (a : list (Entry Hook)) : onlyLogs a -> spawns a = [].
Proof.
  induction 1 as [|en a H _ IH]; [reflexivity|].
  cbn [spawns flat_map]. fold (spawns a). rewrite IH.
  now destruct (effect en).
Qed.

Lemma pick_cons p line rest : pick p (line :: rest) = named p line ++ pick p rest.
Proof. reflexivity. Qed.

(** The loop of [status]: the three lists grow by the names picked from
    the lines, and only log lines are written. *)
Lemma statusLines_picks (lines : list string) :
  forall created modified deleted (st : St Hook),
  exists new,
    statusLines lines created modified deleted st
    = ((if forallb lineOk lines
        then Ret (created ++ pick isAdded lines,
                  modified ++ pick isModified lines,
                  deleted ++ pick isDeleted lines)
        else Panic), extend st new)
    /\ onlyLogs new.
Proof.
  induction lines as [|line rest IH]; intros created modified deleted st.
  - exists []. rewrite extend_nil. cbn. rewrite !app_nil_r.
    split; [reflexivity | constructor].
  - cbn [statusLines forallb]. rewrite !pick_cons.
    destruct (String.length line =? 0)%nat eqn:LEN.
    { assert (OK : lineOk line = true) by (unfold lineOk; now rewrite LEN).
      assert (NM : forall p, named p line = [])
        by (intros p; unfold named; now rewrite LEN).
      rewrite OK, !NM. apply IH. }
    fold (fieldsOf line).
    destruct (fieldsOf line) as [|field [|filename more]] eqn:F.
    { assert (OK : lineOk line = false)
        by (unfold lineOk; fold (fieldsOf line); now rewrite LEN, F).
      rewrite OK. exists []. rewrite extend_nil.
      split; [reflexivity | constructor]. }
    { assert (OK : lineOk line = false)
        by (unfold lineOk; fold (fieldsOf line); rewrite LEN, F;
            now destruct field).
      rewrite OK. exists []. rewrite extend_nil.
      split; [reflexivity | constructor]. }
    destruct field as [|c field'].
    { assert (OK : lineOk line = false)
        by (unfold lineOk; fold (fieldsOf line); now rewrite LEN, F).
      rewrite OK. exists []. rewrite extend_nil.
      split; [reflexivity | constructor]. }
    assert (OK : lineOk line = true)
      by (unfold lineOk; fold (fieldsOf line); now rewrite LEN, F).
    assert (NM : forall p, named p line = if p c then [filename] else [])
      by (intros p; unfold named; now rewrite LEN, F).
    rewrite OK, !NM. cbn [andb]. unfold isAdded, isModified, isDeleted.
    assert (LOG : forall l,
      exists new,
        (emit (Log l) ;;; statusLines rest created modified deleted) st
        = ((if forallb lineOk rest
            then Ret (created ++ pick isAdded rest,
                      modified ++ pick isModified rest,
                      deleted ++ pick isDeleted rest)
            else Panic), extend st new)
        /\ onlyLogs new).
    { intros l.
      destruct (IH created modified deleted
                  (extend st [{| active := isSyncActive (backend st);
                                 effect := Log l |}]))
        as (new & E & O).
      exists ({| active := isSyncActive (backend st); effect := Log l |}
              :: new).
      split.
      - erewrite bind_ret by apply emit_eq. rewrite E, extend_app. reflexivity.
      - constructor; [exact I | exact O]. }
    destruct (Ascii.eqb_spec c "A") as [-> | NA].
    { cbn [Ascii.eqb Bool.eqb orb andb app].
      destruct (IH (created ++ [filename]) modified deleted st) as (new & E & O).
      exists new. rewrite E, <- !app_assoc. now split. }
    destruct (Ascii.eqb_spec c "M") as [-> | NM'].
    { cbn [Ascii.eqb Bool.eqb orb andb app].
      destruct (IH created (modified ++ [filename]) deleted st) as (new & E & O).
      exists new. rewrite E, <- !app_assoc. now split. }
    destruct (Ascii.eqb_spec c "R") as [-> | NR].
    { cbn [Ascii.eqb Bool.eqb orb andb app].
      destruct (IH created (modified ++ [filename]) deleted st) as (new & E & O).
      exists new. rewrite E, <- !app_assoc. now split. }
    destruct (Ascii.eqb_spec c "D") as [-> | ND].
    { cbn [Ascii.eqb Bool.eqb orb andb app].
      destruct (IH created modified (deleted ++ [filename]) st) as (new & E & O).
      exists new. rewrite E, <- !app_assoc. now split. }
    cbn [orb app].
    destruct (Ascii.eqb c "?"); apply LOG.
Qed.

End StatusFacts.

(** ** The lines that [status] can read *)

Lemma SplitByte_nonempty (s : string) (c : ascii) :
  exists p ps, SplitByte s c = p :: ps.
Proof.
  induction s as [|ch s (p & ps & IH)]; cbn [SplitByte].
  - now exists "", [].
  - destruct (Ascii.eqb ch c); [now exists "", (SplitByte s c)|].
    rewrite IH. now exists (String ch p), ps.
Qed.

Lemma ReplaceDoubleSpace_other (c : ascii) (rest : string) :
  c <> " "%char \/ (forall r, rest <> String " " r) ->
  ReplaceDoubleSpace (String c rest) = String c (ReplaceDoubleSpace rest).
Proof.
  intros H.
  destruct c as [[] [] [] [] [] [] [] []]; try reflexivity.
  destruct rest as [|c2 r2]; [reflexivity|].
  destruct c2 as [[] [] [] [] [] [] [] []]; try reflexivity.
  destruct H as [H | H]; [now contradiction H | now contradiction (H r2)].
Qed.

Lemma ReplaceDoubleSpace_head (c : ascii) (rest : string) :
  exists s', ReplaceDoubleSpace (String c rest) = String c s'.
Proof.
  destruct (Ascii.eqb_spec c " ") as [-> | NE].
  - destruct rest as [|c2 r2]; [now exists ""|].
    destruct (Ascii.eqb_spec c2 " ") as [-> | NE2].
    + now exists (ReplaceDoubleSpace r2).
    + exists (ReplaceDoubleSpace (String c2 r2)).
      apply ReplaceDoubleSpace_other. right. intros r [= E _]. now apply NE2.
  - exists (ReplaceDoubleSpace rest). apply ReplaceDoubleSpace_other. now left.
Qed.

Lemma hasBlank_ReplaceDoubleSpace (s : string) :
  hasBlank (ReplaceDoubleSpace s) = hasBlank s.
Proof.
  enough (H : hasBlank (ReplaceDoubleSpace s) = hasBlank s
              /\ forall c, hasBlank (ReplaceDoubleSpace (String c s))
                           = hasBlank (String c s)) by apply H.
  induction s as [|c2 r [IH1 IH2]].
  - split; [reflexivity|]. intros c.
    rewrite ReplaceDoubleSpace_other; [reflexivity | right; discriminate].
  - split; [apply IH2|]. intros c.
    destruct (Ascii.eqb_spec c " ") as [-> | NE].
    + destruct (Ascii.eqb_spec c2 " ") as [-> | NE2]; [reflexivity|].
      rewrite ReplaceDoubleSpace_other;
        [|right; intros r' [= E _]; now apply NE2].
      cbn [hasBlank]. now rewrite IH2.
    + rewrite ReplaceDoubleSpace_other by now left.
      cbn [hasBlank]. now rewrite IH2.
Qed.

Lemma more_fields_iff_blank (s : string) :
  match SplitByte (ReplaceByte s tab " ") " " with
  | _ :: _ :: _ => true
  | _ => false
  end = hasBlank s.
Proof.
  induction s as [|c s IH]; [reflexivity|].
  cbn [ReplaceByte SplitByte hasBlank]. unfold isBlank.
  destruct (SplitByte_nonempty (ReplaceByte s tab " ") " ") as (p & ps & E).
  rewrite E in *.
  destruct (Ascii.eqb_spec c tab) as [-> | NT].
  - cbn. reflexivity.
  - rewrite orb_false_r. destruct (Ascii.eqb c " "); [reflexivity|].
    cbn [orb]. exact IH.
Qed.

(** The test that the loop of [status] makes on a line without saying
    so: the line is read without a panic exactly when it is empty, or
    starts with a byte that is neither a space nor a tab and has a space
    or a tab further on. *)
Lemma lineOk_plainLine (line : string) : lineOk line = plainLine line.
Proof.
  destruct line as [|c rest]; [reflexivity|].
  unfold lineOk, plainLine. cbn [String.length Nat.eqb orb].
  pose proof (more_fields_iff_blank (ReplaceDoubleSpace (String c rest))) as MF.
  rewrite hasBlank_ReplaceDoubleSpace in MF.
  destruct (ReplaceDoubleSpace_head c rest) as (s' & E). rewrite E in *.
  cbn [ReplaceByte SplitByte] in *.
  destruct (SplitByte_nonempty (ReplaceByte s' tab " ") " ") as (p & ps & F).
  rewrite F in *. unfold isBlank.
  destruct (Ascii.eqb_spec c tab) as [-> | NT].
  - reflexivity.
  - rewrite orb_false_r. destruct (Ascii.eqb c " "); [reflexivity|].
    cbn [negb andb]. rewrite <- MF. now destruct ps.
Qed.

Lemma wellFormedStatus_plain (output : string) :
  wellFormedStatus output = forallb plainLine (SplitByte output lf).
Proof.
  unfold wellFormedStatus. induction (SplitByte output lf) as [|l ls IH];
    [reflexivity|].
  cbn [forallb]. now rewrite lineOk_plainLine, IH.
Qed.

Lemma forallb_false_exists {A} (f : A -> bool) (l : list A) :
  forallb f l = false <-> exists x, In x l /\ f x = false.
Proof.
  induction l as [|y l IH]; cbn [forallb In].
  - split; [discriminate | intros (x & [] & _)].
  - rewrite andb_false_iff, IH. split.
    + intros [F | (x & IN & F)]; [now exists y; auto | exists x; auto].
    + intros (x & [<- | IN] & F); [now left | right; now exists x].
Qed.

Section StatusTheorems.

Context {Hook : Type}.
Variable run : Oracle.

Lemma status_reads (args : list string) (st : St Hook) :
  let g := backend st in
  let output := out (answer run g (gitPath g :: args)) in
  exists new,
    status_ run args st
    = ((if wellFormedStatus output then Ret (statusOf output) else Panic),
       extend st new)
    /\ infos new = [] /\ execs new = [gitPath g :: args]
    /\ spawns new = [].
Proof.
  intros g output. unfold status_.
  erewrite bind_ret by reflexivity.
  erewrite bind_ret by apply emit_eq.
  erewrite bind_ret by apply emit_eq.
  rewrite extend_app. fold g. unfold answer in output.
  set (r0 := run (rootDir g) (gitPath g :: args)) in *.
  set (pre := _ ++ _).
  assert (PI : infos pre = [] /\ execs pre = [gitPath g :: args])
    by (now split).
  destruct PI as (PI & PX).
  assert (E1 : exists new1,
    (match err r0 with
     | Some e => emit (Log (errorText e))
     | None => ret tt
     end) (extend st pre) = (Ret tt, extend st (pre ++ new1))
    /\ onlyLogs new1).
  { destruct (err r0) as [e|].
    - eexists. rewrite emit_eq, extend_app. split; [reflexivity|].
      now repeat constructor.
    - exists []. rewrite app_nil_r. split; [reflexivity | constructor]. }
  destruct E1 as (new1 & E1 & O1).
  erewrite bind_ret by exact E1.
  assert (E2 : exists new2,
    when (0 <? String.length (out r0))%nat (emit (Log (out r0)))
      (extend st (pre ++ new1))
    = (Ret tt, extend st ((pre ++ new1) ++ new2))
    /\ onlyLogs new2).
  { destruct (0 <? String.length (out r0))%nat; cbn [when].
    - eexists. rewrite emit_eq, extend_app. split; [reflexivity|].
      now repeat constructor.
    - exists []. rewrite app_nil_r. split; [reflexivity | constructor]. }
  destruct E2 as (new2 & E2 & O2).
  erewrite bind_ret by exact E2.
  destruct (statusLines_picks (SplitByte (out r0) lf) [] [] []
              (extend st ((pre ++ new1) ++ new2))) as (new3 & E3 & O3).
  exists (((pre ++ new1) ++ new2) ++ new3).
  split; [rewrite E3, extend_app; reflexivity|].
  rewrite !infos_app, !execs_app, !spawns_app, PI, PX.
  rewrite !(onlyLogs_infos _ O1), !(onlyLogs_infos _ O2), !(onlyLogs_infos _ O3).
  rewrite !(onlyLogs_execs _ O1), !(onlyLogs_execs _ O2), !(onlyLogs_execs _ O3).
  rewrite !(onlyLogs_spawns _ O1), !(onlyLogs_spawns _ O2),
    !(onlyLogs_spawns _ O3).
  now repeat split.
Qed.

(** X1. [status] panics exactly when the output of the query has a line
    that is not empty and either starts with a space or a tab or has no
    space and no tab at all (the index [lineParts[1]] or [status[0]] is
    then out of range); for every other output it returns its three
    lists. *)
Theorem status_panics_exactly (args : list string) (st : St Hook) :
  let g := backend st in
  let output := out (answer run g (gitPath g :: args)) in
  (fst (status_ run args st) = Panic
   <-> exists line, In line (SplitByte output lf) /\ plainLine line = false)
  /\ (fst (status_ run args st) <> Panic
      -> fst (status_ run args st) = Ret (statusOf output)).
Proof.
  intros g output.
  destruct (status_reads args st) as (new & E & _). fold g output in E.
  rewrite E. cbn [fst]. rewrite wellFormedStatus_plain.
  rewrite <- forallb_false_exists.
  destruct (forallb plainLine (SplitByte output lf)); split;
    try (split; congruence); congruence.
Qed.

(** X2. When every line of the output can be read, the lists that
    [status] returns are, in the order of the lines: as created the
    second field of each line whose first byte is A, as modified that of
    each line whose first byte is M or R (a rename counts as a
    modification), as deleted that of each line whose first byte is D;
    lines that start with anything else add nothing. The query is the
    one command run, and nothing is shown to the user. *)
Theorem status_lists_by_first_byte (args : list string) (st : St Hook) :
  let g := backend st in
  let output := out (answer run g (gitPath g :: args)) in
  forallb plainLine (SplitByte output lf) = true ->
  exists new,
    status_ run args st
    = (Ret (pick isAdded (SplitByte output lf),
            pick isModified (SplitByte output lf),
            pick isDeleted (SplitByte output lf)), extend st new)
    /\ execs new = [gitPath g :: args]
    /\ infos new = [] /\ spawns new = [].
Proof.
  intros g output OK.
  destruct (status_reads args st) as (new & E & IN & X & S).
  fold g output in E. rewrite wellFormedStatus_plain, OK in E.
  exists new. now repeat split.
Qed.

(** X3. When the output can be read, [displayStatus] shows the user at
    most one message: the summary of the three lists when it is not
    empty, and nothing at all exactly when no line starts with A, M, R or
    D. *)
Theorem displayStatus_shows_one_summary (args : list string) (st : St Hook) :
  let g := backend st in
  let output := out (answer run g (gitPath g :: args)) in
  forallb plainLine (SplitByte output lf) = true ->
  exists new,
    displayStatus run args st = (Ret tt, extend st new)
    /\ infos new = (if (String.length (notification output) =? 0)%nat
                    then [] else [notification output])
    /\ (infos new = [] <-> statusOf output = ([], [], [])).
Proof.
  intros g output OK. unfold displayStatus.
  destruct (status_reads args st) as (new & E & IN & X & S).
  fold g output in E. rewrite wellFormedStatus_plain, OK in E.
  erewrite bind_ret by exact E.
  unfold notification. destruct (statusOf output) as [[created modified] deleted].
  set (msg := summary created modified deleted).
  assert (EMPTY : (String.length msg =? 0)%nat = true
                  <-> (created, modified, deleted) = ([], [], [])).
  { rewrite Nat.eqb_eq. split.
    - intros L. destruct msg eqn:M; [|discriminate].
      apply summary_empty_iff in M. destruct M as (-> & -> & ->). reflexivity.
    - intros [= -> -> ->]. reflexivity. }
  destruct (String.length msg =? 0)%nat eqn:LEN; cbn [negb when].
  - exists new. rewrite IN. split; [reflexivity|]. split; [reflexivity|].
    split; [intros _; now apply EMPTY | reflexivity].
  - eexists. rewrite emit_eq, extend_app. split; [reflexivity|].
    rewrite infos_app, IN. cbn. split; [reflexivity|].
    split; [discriminate|]. intros H. apply EMPTY in H. discriminate.
Qed.

End StatusTheorems.


Lemma status_lists_by_first_byte_witness :
  exists new,
    status_ MoreExamples.listing ["status"; "--porcelain"] Examples.fresh
    = (Ret (["b.txt"], ["c.txt"; "old"], ["gone"]), extend Examples.fresh new).
Proof.
  destruct (status_lists_by_first_byte MoreExamples.listing
              ["status"; "--porcelain"] Examples.fresh eq_refl)
    as (new & E & _).
  exists new. exact E.
Defined.

Lemma displayStatus_shows_one_summary_witness :
  exists new,
    displayStatus MoreExamples.listing ["status"; "--porcelain"] Examples.fresh
    = (Ret tt, extend Examples.fresh new)
    /\ infos new = ["New: b.txt Edit: 2 Del: gone"].
Proof.
  destruct (displayStatus_shows_one_summary MoreExamples.listing
              ["status"; "--porcelain"] Examples.fresh eq_refl)
    as (new & E & IN & _).
  exists new. split; [exact E | exact IN].
Defined.

(** ** The start of the client and the event loop *)

Section StartAndLoop.

Context {Hook : Type}.
Variable run : Oracle.

Lemma pathOf_pull_failure (g : GitBackend Hook) argv e :
  pullFailsAt run g argv e ->
  (pathOf run g = FetchFailed /\ argv = fetchArgv g
   \/ pathOf run g = MergeFailed /\ argv = mergeArgv g)
  /\ gitResult run g argv = Some (gitErrorOf run g argv e).
Proof.
  intros [(-> & XF) | (-> & SF & RD & XM)]; unfold pathOf.
  - rewrite (exitsWith_gitResult _ _ _ _ XF). auto.
  - rewrite (succeeds_gitResult _ _ _ SF), (exitsWith_gitResult _ _ _ _ XM).
    unfold readable in RD. rewrite RD. auto.
Qed.

(** X4. At the start of the client, a first [Sync] that stops at a
    failed fetch or a failed merge is shown to the user with [Warn] (the
    text of [Error()]: command line, output, exit status text) unless the
    exit status is 1: then nothing is shown, although add, commit and
    push were not run. *)
Theorem startup_is_silent_on_status_one (g : GitBackend Hook)
    (tr : list (Entry Hook)) (argv : list string) (e : ExitError) :
  pullFailsAt run g argv e ->
  exists new st',
    startupSync run {| backend := g; trace := tr |}
    = (Ret (if exitStatus e =? 1 then None
            else Some (GitError_Error (gitErrorOf run g argv e))), st')
    /\ trace st' = tr ++ new
    /\ ~ In (addArgv g) (execs new)
    /\ ~ In (commitArgv g) (execs new)
    /\ ~ In (pushArgv g) (execs new).
Proof.
  intros H. destruct (pathOf_pull_failure g argv e H) as (P & R).
  destruct (Sync_run run g tr) as (mid & E & (F & X & S)).
  unfold startupSync.
  assert (X' : execs ({| active := isSyncActive g;
                         effect := Log "* Sync start" |}
                      :: mid ++ pathEnd (pathOf run g))
               = firstn (pathLength (pathOf run g)) (syncCommands g)).
  { change (execs (mid ++ pathEnd (pathOf run g))
            = firstn (pathLength (pathOf run g)) (syncCommands g)).
    rewrite execs_app, X.
    destruct (pathOf run g); cbn [pathEnd]; apply app_nil_r. }
  destruct P as [(P & ->) | (P & ->)];
    rewrite P in E, X'; cbn [pathResult pathPanics pathEnd pathLength] in E, X';
    rewrite R in E;
    (erewrite bind_ret by exact E);
    (eexists; eexists; split;
     [unfold ret, warnsAtStartup; cbn [status gitErrorOf option_map];
      destruct (exitStatus e =? 1); reflexivity|]);
    cbn [trace]; (split; [reflexivity|]); rewrite X';
    cbn [firstn syncCommands]; repeat split; cbn;
    intros K; repeat destruct K as [K | K]; (discriminate K || exact K).
Qed.

Variable addWatchErr : string -> option string.
Variable show : Loop.Event -> string.

(** X5. A notification of a peer makes the loop run [Sync] in the same
    turn, whatever the flags and the time of the last file event: the
    fetch is run at once, the debouncer is not involved (no goroutine of
    [syncLater] is started, [lastEvent] and [isSyncPending] keep their
    values), and no watch is added. *)
Theorem peer_notification_syncs_at_once (c : Walk.Client)
    (g : GitBackend Hook) (tr : list (Entry Hook)) :
  exists r d' new,
    Loop.turn run addWatchErr show Loop.Incoming
      {| Loop.clientSide := c;
         Loop.backendSide := {| backend := g; trace := tr |} |}
    = (r, d')
    /\ trace (Loop.backendSide d') = tr ++ new
    /\ hd_error (execs new) = Some (fetchArgv g)
    /\ ~ In GoSyncLater (spawns new)
    /\ lastEvent (backend (Loop.backendSide d')) = lastEvent g
    /\ isSyncPending (backend (Loop.backendSide d')) = isSyncPending g
    /\ Walk.watched (Loop.clientSide d') = Walk.watched c.
Proof.
  destruct (Sync_run run g tr) as (mid & E & (F & X & S)).
  unfold Loop.turn. cbn [Loop.clientSide Loop.backendSide]. rewrite E.
  assert (X' : hd_error
                 (execs ({| active := isSyncActive g;
                            effect := Log "* Sync start" |}
                         :: mid ++ pathEnd (pathOf run g)))
               = Some (fetchArgv g)).
  { change (hd_error (execs (mid ++ pathEnd (pathOf run g)))
            = Some (fetchArgv g)).
    rewrite execs_app, X. now destruct (pathOf run g). }
  assert (S' : ~ In GoSyncLater
                   (spawns ({| active := isSyncActive g;
                               effect := Log "* Sync start" |}
                            :: mid ++ pathEnd (pathOf run g)))).
  { change (~ In GoSyncLater (spawns (mid ++ pathEnd (pathOf run g)))).
    rewrite spawns_app, S. unfold pathSpawns.
    destruct (pathOf run g), (pushHook g); cbn;
      intros K; repeat destruct K as [K | K]; (discriminate K || exact K). }
  destruct (pathResult run g (pathOf run g)) as [r|];
    (eexists; eexists; eexists; split; [reflexivity|]);
    cbn [Loop.clientSide Loop.backendSide trace backend];
    repeat split; assumption.
Qed.

(** X6. A file event that comes while a [Sync] is active leaves the
    backend as it is (no start of [syncLater], [lastEvent] unchanged),
    whatever the file; yet when it is the creation of a directory outside
    the metadata of git, the directory is watched all the same, if
    [AddWatch] succeeds. That turn of the loop never panics. *)
Theorem file_event_during_sync (ev : Loop.Event) (now : Z)
    (c : Walk.Client) (st : St Hook) :
  isSyncActive (backend st) = true ->
  exists c',
    Loop.turn run addWatchErr show (Loop.WatchEvent ev now)
      {| Loop.clientSide := c; Loop.backendSide := st |}
    = (Ret tt, {| Loop.clientSide := c'; Loop.backendSide := st |})
    /\ Walk.watched c'
       = Walk.watched c
         ++ (if Loop.isCreate ev && Loop.isDir ev
                && watchable addWatchErr (Loop.Name ev)
             then [Loop.Name ev] else []).
Proof.
  intros A. unfold Loop.turn. cbn [Loop.clientSide Loop.backendSide].
  assert (CH : Changed now (Loop.Name ev) st = (Ret tt, st)).
  { unfold Changed, bind, get. rewrite A, orb_true_r. reflexivity. }
  rewrite CH. eexists. split; [reflexivity|].
  unfold watchable, Walk.Println, Walk.AddWatch.
  destruct (Loop.isCreate ev), (Loop.isDir ev), (ShouldWatch (Loop.Name ev));
    cbn [andb snd Walk.watched]; try (now rewrite app_nil_r).
  destruct (addWatchErr (Loop.Name ev)); cbn [isNone snd Walk.watched];
    [now rewrite app_nil_r | reflexivity].
Qed.

End StartAndLoop.

Lemma startup_is_silent_on_status_one_witness :
  exists st',
    startupSync (Examples.failing "merge" 1) Examples.fresh = (Ret None, st')
    /\ ~ In (pushArgv Examples.repo) (execs (trace st')).
Proof.
  destruct (startup_is_silent_on_status_one (Examples.failing "merge" 1)
              Examples.repo [] (mergeArgv Examples.repo) (Examples.exit 1))
    as (new & st' & E & T & NA & NC & NP).
  { right. repeat split. }
  exists st'. split; [exact E|]. rewrite T. exact NP.
Defined.

Lemma file_event_during_sync_witness :
  exists c',
    Loop.turn Examples.allGood (fun _ => None) (fun ev => Loop.Name ev)
      (Loop.WatchEvent {| Loop.Mask := 1073742080; Loop.Name := "/repo/new" |} 7)
      {| Loop.clientSide := {| Walk.watched := ["/repo"]; Walk.logged := [] |};
         Loop.backendSide :=
           {| backend := set_isSyncActive true Examples.repo; trace := [] |} |}
    = (Ret tt,
       {| Loop.clientSide := c';
          Loop.backendSide :=
            {| backend := set_isSyncActive true Examples.repo; trace := [] |} |})
    /\ Walk.watched c' = ["/repo"; "/repo/new"].
Proof.
  destruct (file_event_during_sync Examples.allGood (fun _ => None)
              (fun ev => Loop.Name ev)
              {| Loop.Mask := 1073742080; Loop.Name := "/repo/new" |} 7
              {| Walk.watched := ["/repo"]; Walk.logged := [] |}
              {| backend := set_isSyncActive true Examples.repo; trace := [] |}
              eq_refl) as (c' & E & W).
  exists c'. split; [exact E | exact W].
Defined.

(** ** The debouncer: an event just before the flag is cleared *)

Module DebounceEdge.
Import Debounce.

Section Edge.

Context {Hook : Type}.

Lemma setNth_app_last {A} (l : list A) (x y : A) :
  setNth (List.length l) y (l ++ [x]) = l ++ [y].
Proof. induction l as [|z l IH]; cbn; [reflexivity | now rewrite IH]. Qed.

Lemma setNth_app_l {A} (l l' : list A) (y : A) :
  forall n, (n < List.length l)%nat ->
            setNth n y (l ++ l') = setNth n y l ++ l'.
Proof.
  induction l as [|z l IH]; intros n H; cbn in H; [lia|].
  destruct n as [|n]; cbn; [reflexivity|]. rewrite IH by lia. reflexivity.
Qed.

Lemma nth_error_last {A} (l : list A) (x : A) :
  nth_error (l ++ [x]) (List.length l) = Some x.
Proof. induction l as [|z l IH]; cbn; [reflexivity | exact IH]. Qed.

Lemma Forall_setNth {A} (P : A -> Prop) (l : list A) (y : A) :
  forall n, P y ->
            (forall j x, nth_error l j = Some x -> j <> n -> P x) ->
            Forall P (setNth n y l).
Proof.
  induction l as [|z l IH]; intros n Py H; cbn; [destruct n; constructor|].
  destruct n as [|n]; constructor.
  - exact Py.
  - apply Forall_forall. intros x IN. apply In_nth_error in IN.
    destruct IN as [j IN]. apply (H (S j) x); [exact IN | discriminate].
  - apply (H 0%nat z); [reflexivity | discriminate].
  - apply IH; [exact Py|]. intros j x N NE. apply (H (S j) x); [exact N | lia].
Qed.

Lemma act_step (s : System (Hook := Hook)) now j pc g' pc' :
  nth_error (threads s) j = Some pc ->
  stepSyncLater now (shared s) pc = Some (g', pc') ->
  pc <> pcSync ->
  act s (ActStep now j)
  = {| shared := g'; threads := setNth j pc' (threads s);
       syncStarts := syncStarts s |}.
Proof.
  intros N ST NS. unfold act. rewrite N, ST.
  destruct pc; try reflexivity. now contradiction NS.
Qed.

(** X7. A file event that [Changed] accepts after the debounced [Sync]
    has returned but before [syncLater] has cleared [isSyncPending] is
    lost to the debouncer: its time is recorded in [lastEvent], its
    goroutine finds the flag set and returns, the task then clears the
    flag, and every goroutine has returned without a [Sync] entered
    after the event. *)
Theorem event_before_clear_starts_no_task (s : System (Hook := Hook))
    (tid : nat) (t : Z) (f : string) :
  nth_error (threads s) tid = Some pcClear ->
  (forall j pc, nth_error (threads s) j = Some pc -> j <> tid -> pc = pcDone) ->
  syncLock (shared s) = false ->
  isSyncPending (shared s) = true ->
  isSyncActive (shared s) = false ->
  isGit f = false ->
  let k := List.length (threads s) in
  let s' := runActions s [ActChanged t f; ActStep t k; ActStep t k;
                          ActStep t k; ActStep t tid] in
  lastEvent (shared s') = t
  /\ isSyncPending (shared s') = false
  /\ Forall (fun pc => pc = pcDone) (threads s')
  /\ syncStarts s' = syncStarts s.
Proof.
  intros N OTHERS L P A G k s'.
  assert (LT : (tid < List.length (threads s))%nat)
    by (apply nth_error_Some; congruence).
  subst s'. unfold runActions. cbn [fold_left].
  (* Changed *)
  assert (S1 : act s (ActChanged t f)
               = {| shared := set_lastEvent t (shared s);
                    threads := threads s ++ [pcLock];
                    syncStarts := syncStarts s |}).
  { unfold act.
    destruct (DebounceFacts.callChanged_spec t f (shared s)) as [_ E].
    now rewrite (E G A). }
  rewrite S1. clear S1.
  set (g1 := set_lastEvent t (shared s)).
  set (g2 := set_syncLock true g1).
  set (g3 := set_syncLock false g2).
  (* the goroutine of the event: Lock, the test, Unlock and return *)
  assert (S2 : act {| shared := g1; threads := threads s ++ [pcLock];
                      syncStarts := syncStarts s |} (ActStep t k)
               = {| shared := g2; threads := threads s ++ [pcTest];
                    syncStarts := syncStarts s |}).
  { erewrite act_step;
      [| apply nth_error_last
       | cbn [shared stepSyncLater]; subst g1;
         cbn [syncLock set_lastEvent]; rewrite L; reflexivity
       | discriminate].
    cbn [threads]. unfold k. now rewrite setNth_app_last. }
  rewrite S2. clear S2.
  assert (S3 : act {| shared := g2; threads := threads s ++ [pcTest];
                      syncStarts := syncStarts s |} (ActStep t k)
               = {| shared := g2; threads := threads s ++ [pcUnlockReturn];
                    syncStarts := syncStarts s |}).
  { erewrite act_step;
      [| apply nth_error_last
       | cbn [shared stepSyncLater]; subst g2 g1;
         cbn [isSyncPending set_lastEvent set_syncLock]; rewrite P;
         reflexivity
       | discriminate].
    cbn [threads]. unfold k. now rewrite setNth_app_last. }
  rewrite S3. clear S3.
  assert (S4 : act {| shared := g2; threads := threads s ++ [pcUnlockReturn];
                      syncStarts := syncStarts s |} (ActStep t k)
               = {| shared := g3; threads := threads s ++ [pcDone];
                    syncStarts := syncStarts s |}).
  { erewrite act_step;
      [| apply nth_error_last | reflexivity | discriminate].
    cbn [threads]. unfold k. now rewrite setNth_app_last. }
  rewrite S4. clear S4.
  (* the task clears the flag *)
  erewrite act_step;
    [| cbn [threads]; rewrite nth_error_app1 by exact LT; exact N
     | reflexivity | discriminate].
  cbn [shared threads syncStarts]. rewrite setNth_app_l by exact LT.
  repeat split.
  apply Forall_app. split; [|now repeat constructor].
  apply Forall_setNth; [reflexivity | exact OTHERS].
Qed.

End Edge.

End DebounceEdge.

Lemma event_before_clear_starts_no_task_witness :
  let s' := Debounce.runActions MoreExamples.finishing
              [Debounce.ActChanged 6000000000 "a.txt";
               Debounce.ActStep 6000000000 2; Debounce.ActStep 6000000000 2;
               Debounce.ActStep 6000000000 2; Debounce.ActStep 6000000000 1] in
  lastEvent (Debounce.shared s') = 6000000000
  /\ isSyncPending (Debounce.shared s') = false
  /\ Forall (fun pc => pc = Debounce.pcDone) (Debounce.threads s')
  /\ Debounce.syncStarts s' = [5000000000].
Proof.
  apply (DebounceEdge.event_before_clear_starts_no_task
           MoreExamples.finishing 1 6000000000 "a.txt");
    try reflexivity.
  intros [|[|[|j]]] pc N NE; cbn in N; congruence.
Defined.

(** ** Two calls of [Sync] at once *)

Section Overlap.

Context {Hook : Type}.
Variable run : Oracle.

Lemma nth_error_setNth {A} (l : list A) (x : A) :
  forall n y, nth_error l n = Some y -> nth_error (Debounce.setNth n x l) n = Some x.
Proof.
  induction l as [|z l IH]; intros [|n] y H; try discriminate.
  - reflexivity.
  - cbn. apply (IH n y). exact H.
Qed.

(** C4. [isSyncActive] is not [true] for the whole span of every call of
    [Sync]. The goroutine of [syncLater] and the event loop both call
    [Sync] on the one backend, and the flag is a plain field. When the
    goroutine has entered [Sync] (the flag is set, its commands run) and
    a notification of a peer makes the event loop call [Sync], the call
    of the event loop returns and clears the flag while the call of the
    goroutine has not reached its exit: from there on that call goes on
    with the flag [false], and a file event is accepted by [Changed],
    which starts a goroutine for it, as if no [Sync] were running. *)
Theorem overlapping_Sync_clears_flag (s : Debounce.System (Hook := Hook))
    (tid : nat) (now : Z) (tr : list (Entry Hook)) :
  nth_error (Debounce.threads s) tid = Some Debounce.pcSync ->
  pathPanics (pathOf run (Debounce.shared s)) = false ->
  let s1 := Debounce.act s (Debounce.ActStep now tid) in
  let s2 := Debounce.runActions s1
              [Debounce.ActLoopSync true; Debounce.ActLoopSync false] in
  isSyncActive (Debounce.shared s1) = true
  /\ nth_error (Debounce.threads s1) tid = Some Debounce.pcInSync
  /\ (exists r st',
        Sync run {| backend := Debounce.shared s1; trace := tr |}
        = (Ret r, st')
        /\ backend st' = Debounce.shared s2)
  /\ nth_error (Debounce.threads s2) tid = Some Debounce.pcInSync
  /\ isSyncActive (Debounce.shared s2) = false
  /\ (forall now' filename,
        isGit filename = false ->
        Debounce.act s2 (Debounce.ActChanged now' filename)
        = {| Debounce.shared := set_lastEvent now' (Debounce.shared s2);
             Debounce.threads := Debounce.threads s2 ++ [Debounce.pcLock];
             Debounce.syncStarts := Debounce.syncStarts s2 |}).
Proof.
  intros N NP s1 s2.
  assert (E1 : s1 = {| Debounce.shared :=
                         set_isSyncActive true (Debounce.shared s);
                       Debounce.threads :=
                         Debounce.setNth tid Debounce.pcInSync
                           (Debounce.threads s);
                       Debounce.syncStarts :=
                         Debounce.syncStarts s ++ [now] |}).
  { subst s1. unfold Debounce.act. now rewrite N. }
  assert (E2 : s2 = {| Debounce.shared :=
                         set_isSyncActive false (Debounce.shared s);
                       Debounce.threads :=
                         Debounce.setNth tid Debounce.pcInSync
                           (Debounce.threads s);
                       Debounce.syncStarts :=
                         Debounce.syncStarts s ++ [now] |}).
  { subst s2. rewrite E1. reflexivity. }
  clearbody s1 s2. subst s1 s2.
  cbn [Debounce.shared Debounce.threads Debounce.syncStarts].
  split; [reflexivity|].
  split; [exact (nth_error_setNth _ _ _ _ N)|].
  split.
  { destruct (Sync_run run (set_isSyncActive true (Debounce.shared s)) tr)
      as (mid & E & _).
    change (pathOf run (set_isSyncActive true (Debounce.shared s)))
      with (pathOf run (Debounce.shared s)) in E.
    destruct (pathOf run (Debounce.shared s)); try discriminate NP;
      cbn [pathResult pathPanics] in E;
      (eexists; eexists; split; [exact E | reflexivity]). }
  split; [exact (nth_error_setNth _ _ _ _ N)|].
  split; [reflexivity|].
  intros now' filename G. unfold Debounce.act.
  cbn [Debounce.shared Debounce.threads Debounce.syncStarts].
  destruct (DebounceFacts.callChanged_spec now' filename
              (set_isSyncActive false (Debounce.shared s))) as [_ ACC].
  now rewrite (ACC G eq_refl).
Qed.

(** C5. A burst does not always trigger exactly one run. First
    schedule: a file event at second 0 and its [Sync], from second 5 to
    second 7; a second file event, a burst of its own seven seconds
    after the first, is accepted by [Changed] when [Sync] has returned
    and [isSyncPending] is still set; its goroutine finds the flag set
    and returns, the task clears the flag and returns. Every goroutine has
    returned, no statement is left to run, and no [Sync] was entered
    after the second event: that burst triggers no run. Second schedule:
    two file events one second apart, one burst; the goroutine of the
    second event runs its first statement only when the task has run
    [Sync] and cleared the flag, so it becomes a task too: [Sync] is
    entered twice for the one burst, at seconds 6 and 7. *)
Theorem burst_can_trigger_no_sync_or_two (syncDir path : string) :
  let g := NewGitBackend (Hook := Hook) syncDir path in
  let lost := Debounce.runActions (Debounce.initial g)
                MoreExamples.lostEvent in
  let late := Debounce.runActions (Debounce.initial g)
                MoreExamples.lateGoroutine in
  (Debounce.burst [(0, "a.txt")]
   /\ Debounce.burst [(7000000000, "b.txt")]
   /\ SYNC_IDLE_SECS * Second <= 7000000000 - 0
   /\ lastEvent (Debounce.shared lost) = 7000000000
   /\ Debounce.syncStarts lost = [5000000000]
   /\ Debounce.threads lost = [Debounce.pcDone; Debounce.pcDone]
   /\ isSyncPending (Debounce.shared lost) = false
   /\ forall now tid, Debounce.act lost (Debounce.ActStep now tid) = lost)
  /\ (Debounce.burst [(0, "a.txt"); (1000000000, "b.txt")]
      /\ lastEvent (Debounce.shared late) = 1000000000
      /\ Debounce.syncStarts late = [6000000000; 7000000000]
      /\ Debounce.threads late = [Debounce.pcDone; Debounce.pcDone]).
Proof.
  intros g lost late.
  assert (L : lost = {| Debounce.shared := set_lastEvent 7000000000 g;
                        Debounce.threads := [Debounce.pcDone; Debounce.pcDone];
                        Debounce.syncStarts := [5000000000] |})
    by reflexivity.
  assert (T : late = {| Debounce.shared := set_lastEvent 1000000000 g;
                        Debounce.threads := [Debounce.pcDone; Debounce.pcDone];
                        Debounce.syncStarts := [6000000000; 7000000000] |})
    by reflexivity.
  clearbody lost late. subst lost late. split.
  - split; [now split|]. split; [now split|].
    split; [unfold SYNC_IDLE_SECS, Second; lia|].
    repeat (split; [reflexivity|]).
    intros now [|[|[|tid]]]; reflexivity.
  - split; [|repeat split].
    cbn. unfold SYNC_IDLE_SECS, Second. repeat split; lia.
Qed.

End Overlap.

Lemma overlapping_Sync_clears_flag_witness :
  let s := Debounce.runActions
             (Debounce.initial
                (NewGitBackend (Hook := nat) "/repo" "/usr/bin/git"))
             MoreExamples.untilSync in
  let s2 := Debounce.runActions s
              [Debounce.ActStep 5000000000 0;
               Debounce.ActLoopSync true; Debounce.ActLoopSync false] in
  Debounce.threads s = [Debounce.pcSync]
  /\ isSyncActive (Debounce.shared s) = false
  /\ Debounce.threads s2 = [Debounce.pcInSync]
  /\ isSyncActive (Debounce.shared s2) = false
  /\ Debounce.threads
       (Debounce.act s2 (Debounce.ActChanged 6000000000 "b.txt"))
     = [Debounce.pcInSync; Debounce.pcLock].
Proof.
  intros s s2.
  split; [reflexivity|]. split; [reflexivity|]. split; [reflexivity|].
  destruct (overlapping_Sync_clears_flag Examples.allGood s 0 5000000000 []
              eq_refl eq_refl)
    as (_ & _ & _ & _ & A & C).
  split; [exact A|].
  change s2 with (Debounce.runActions
                    (Debounce.act s (Debounce.ActStep 5000000000 0))
                    [Debounce.ActLoopSync true; Debounce.ActLoopSync false]).
  now rewrite (C 6000000000 "b.txt" eq_refl).
Defined.

(** ** The startup walk: the watches it leaves *)

Section WalkTheorems.

Variable addWatchErr : string -> option string.
Variable join : string -> string -> string.

(** X8. After the walk of a root that exists, [addWatches] returns, and
    the client has grown by what the callback did on the directories
    handed to it, in the order of the walk, the path of an entry being
    [filepath.Join] of the path of its directory and its name: a watch on
    each of these paths that does not contain ".git" and on which
    [AddWatch] succeeded, and a line logged for each of these paths that
    does not contain ".git". A directory that cannot be read is handed to
    the callback twice, so it is logged twice and [AddWatch] is called on
    it twice. The directories under the metadata of git are walked too
    but never watched, and files are never watched. When the root does
    not exist the callback panics on its [nil] info. *)
Theorem addWatches_watches_exactly (rootDir : string) (tree : Walk.Tree)
    (c : Walk.Client) :
  Walk.addWatches addWatchErr join rootDir (Some tree) c
  = (Walk.Returns, grown addWatchErr c (callbackDirs join rootDir tree))
  /\ (forall p,
        In p (Walk.watched
                (snd (Walk.addWatches addWatchErr join rootDir (Some tree) c)))
        <-> In p (Walk.watched c)
            \/ (In p (callbackDirs join rootDir tree)
                /\ isGit p = false /\ addWatchErr p = None))
  /\ (forall n msg entries,
        Walk.addWatches addWatchErr join rootDir
          (Some (Walk.Dir n (Some msg) entries)) c
        = (Walk.Returns, grown addWatchErr c [rootDir; rootDir]))
  /\ Walk.addWatches addWatchErr join rootDir None c = (Walk.Panics, c).
Proof.
  assert (E : forall t,
             Walk.addWatches addWatchErr join rootDir (Some t) c
             = (Walk.Returns,
                grown addWatchErr c (callbackDirs join rootDir t))).
  { intros t. unfold Walk.addWatches, Walk.Walk.
    now rewrite WalkCoverage.walk_grows. }
  split; [apply E|]. split; [|split; [intros; now rewrite E|reflexivity]].
  intros p. rewrite E. cbn [snd grown Walk.watched].
  rewrite in_app_iff, filter_In. unfold watchable, ShouldWatch.
  rewrite andb_true_iff, negb_true_iff.
  destruct (addWatchErr p); cbn [isNone]; intuition congruence.
Qed.

End WalkTheorems.

(** ** The debouncer never blocks for good *)

Section Progress.

Context {Hook : Type}.

Lemma count_pos_exists (f : Debounce.PC -> bool) (l : list Debounce.PC) :
  (1 <= Debounce.count f l)%nat ->
  exists j pc, nth_error l j = Some pc /\ f pc = true.
Proof.
  unfold Debounce.count. induction l as [|x l IH]; cbn [filter List.length].
  - lia.
  - destruct (f x) eqn:F.
    + intros _. now exists 0%nat, x.
    + intros H. destruct (IH H) as (j & pc & N & P).
      now exists (S j), pc.
Qed.

(** X9. In every state that an interleaving reaches from a backend with
    the mutex free and the flag clear, a goroutine of [syncLater] that
    has not returned can always execute its next statement, unless it
    waits at [Lock] for the mutex; and then the mutex is held by a
    goroutine that can execute its next statement. No goroutine waits for
    a mutex that nobody will release. *)
Theorem syncLater_never_deadlocks (g : GitBackend Hook)
    (acts : list Debounce.Action) (tid : nat) (pc : Debounce.PC) (now : Z) :
  syncLock g = false -> isSyncPending g = false ->
  let s := Debounce.runActions (Debounce.initial g) acts in
  nth_error (Debounce.threads s) tid = Some pc ->
  pc <> Debounce.pcDone ->
  Debounce.stepSyncLater now (Debounce.shared s) pc <> None
  \/ (pc = Debounce.pcLock
      /\ exists tid' pc',
           nth_error (Debounce.threads s) tid' = Some pc'
           /\ Debounce.holdsLock pc' = true
           /\ Debounce.stepSyncLater now (Debounce.shared s) pc' <> None).
Proof.
  intros L P s N ND.
  assert (I : Debounce.Inv s)
    by (apply DebounceFacts.Inv_runActions, DebounceFacts.Inv_initial;
        assumption).
  destruct I as (IL & _ & _).
  destruct pc; try (left; cbn; discriminate); [|now contradiction ND].
  cbn [Debounce.stepSyncLater].
  destruct (syncLock (Debounce.shared s)) eqn:LK; [|left; discriminate].
  right. split; [reflexivity|].
  destruct (count_pos_exists Debounce.holdsLock (Debounce.threads s))
    as (j & pc' & N' & H); [rewrite IL; cbn; lia|].
  exists j, pc'. split; [exact N'|]. split; [exact H|].
  destruct pc'; try discriminate H; cbn; discriminate.
Qed.

End Progress.

Lemma syncLater_never_deadlocks_witness :
  let s := Debounce.runActions
             (Debounce.initial (NewGitBackend (Hook := nat) "/repo" "/usr/bin/git"))
             [Debounce.ActChanged 0 "a.txt"; Debounce.ActChanged 1000 "b.txt";
              Debounce.ActStep 1000 0; Debounce.ActStep 1000 0] in
  nth_error (Debounce.threads s) 1 = Some Debounce.pcLock
  /\ (Debounce.stepSyncLater 1000 (Debounce.shared s) Debounce.pcLock <> None
      \/ (Debounce.pcLock = Debounce.pcLock
          /\ exists tid' pc',
               nth_error (Debounce.threads s) tid' = Some pc'
               /\ Debounce.holdsLock pc' = true
               /\ Debounce.stepSyncLater 1000 (Debounce.shared s) pc' <> None)).
Proof.
  intros s. split; [reflexivity|].
  apply (syncLater_never_deadlocks
           (NewGitBackend (Hook := nat) "/repo" "/usr/bin/git")
           [Debounce.ActChanged 0 "a.txt"; Debounce.ActChanged 1000 "b.txt";
            Debounce.ActStep 1000 0; Debounce.ActStep 1000 0]
           1 Debounce.pcLock 1000 eq_refl eq_refl eq_refl).
  discriminate.
Defined.

(** ** The name that [status] keeps *)

Lemma ReplaceDoubleSpace_app (a s : string) :
  hasBlank a = false ->
  ReplaceDoubleSpace (a ++ s) = (a ++ ReplaceDoubleSpace s)%string.
Proof.
  induction a as [|c a IH]; intros H; [reflexivity|].
  cbn [hasBlank] in H. apply orb_false_iff in H. destruct H as (HC & HA).
  cbn [String.append]. rewrite ReplaceDoubleSpace_other.
  - now rewrite IH.
  - left. intros ->. discriminate HC.
Qed.

Lemma ReplaceByte_app (a s : string) :
  hasBlank a = false ->
  ReplaceByte (a ++ s) tab " " = (a ++ ReplaceByte s tab " ")%string.
Proof.
  induction a as [|c a IH]; intros H; [reflexivity|].
  cbn [hasBlank] in H. apply orb_false_iff in H. destruct H as (HC & HA).
  unfold isBlank in HC. apply orb_false_iff in HC. destruct HC as (_ & HT).
  cbn [String.append ReplaceByte]. now rewrite HT, IH.
Qed.

Lemma SplitByte_app (a s : string) :
  hasBlank a = false ->
  SplitByte (a ++ String " " s) " " = a :: SplitByte s " ".
Proof.
  induction a as [|c a IH]; intros H; [reflexivity|].
  cbn [hasBlank] in H. apply orb_false_iff in H. destruct H as (HC & HA).
  unfold isBlank in HC. apply orb_false_iff in HC. destruct HC as (HS & _).
  cbn [String.append SplitByte]. now rewrite HS, IH.
Qed.

(** X10. The name that [status] keeps for a line is its second field
    only: for a line made of a first field, a space, a name without
    blanks, a space and anything more, the name recorded stops at that
    second space, so a file name with a space in it is cut there. *)
Theorem name_is_cut_at_the_next_space (p : ascii -> bool) (c : ascii)
    (w n1 n2 : string) :
  isBlank c = false -> hasBlank w = false ->
  hasBlank n1 = false -> n1 <> "" ->
  named p (String c w ++ String " " (n1 ++ String " " n2))
  = if p c then [n1] else [].
Proof.
  intros HC HW HN NE.
  assert (HCW : hasBlank (String c w) = false)
    by (cbn [hasBlank]; now rewrite HC, HW).
  unfold named. cbn [String.append String.length Nat.eqb].
  change (String c (w ++ String " " (n1 ++ String " " n2))%string)
    with (String c w ++ String " " (n1 ++ String " " n2))%string.
  unfold fieldsOf. rewrite (ReplaceDoubleSpace_app _ _ HCW).
  destruct n1 as [|d n1']; [now contradiction NE|].
  assert (HD : d <> " "%char).
  { intros ->. cbn [hasBlank] in HN. discriminate HN. }
  rewrite ReplaceDoubleSpace_other
    by (right; intros r [= E _]; now apply HD).
  rewrite (ReplaceDoubleSpace_app _ _ HN).
  destruct (ReplaceDoubleSpace_head " " n2) as (s' & E). rewrite E.
  rewrite (ReplaceByte_app _ _ HCW). cbn [ReplaceByte].
  change (Ascii.eqb " " tab) with false. cbv iota.
  rewrite (ReplaceByte_app _ _ HN). cbn [ReplaceByte].
  change (Ascii.eqb " " tab) with false. cbv iota.
  rewrite (SplitByte_app _ _ HCW), (SplitByte_app _ _ HN).
  reflexivity.
Qed.

Lemma name_is_cut_at_the_next_space_witness :
  named isAdded "A my file.txt" = ["my"].
Proof.
  assert (N : "my" <> "") by discriminate.
  exact (name_is_cut_at_the_next_space isAdded "A" "" "my" "file.txt"
           eq_refl eq_refl eq_refl N).
Defined.
